(** * AD-Geny: the storyboard generation pipeline

    A shallow embedding of [models.py], [ad_details_generator.py],
    [scene_generator.py] and of [AdStoryboardGenerator.generate] in [main.py].

    Python strings are Rocq strings (sequences of bytes, UTF-8 for the one
    non-ASCII character of the prompts), Python integers are [Z], an
    [Optional] field is an [option].  The generative model and the output
    parsers are libraries outside the repository: the model is a state
    transformer over an arbitrary world, a parser is an arbitrary partial
    function on texts.  Exceptions are results: every generator function is a
    computation in a state-and-exception monad whose state carries the world
    of the model together with the list of the prompts sent so far. *)

From Stdlib Require Import ZArith String Ascii List Bool Lia.
From stdpp Require Import base option list list_numbers strings gmap pretty.

Open Scope Z_scope.

(** ** Python values and strings *)

(** The double quote character, for the literal texts that contain it. *)
Definition dq : string := String (ascii_of_nat 34) EmptyString.

(** The line feed. *)
Definition nl : string := String (ascii_of_nat 10) EmptyString.

(** A text between double quotes. *)
Definition quoted (s : string) : string := dq +:+ s +:+ dq.

(** [x or default] on an [Optional[str]]: [None] and the empty string are
    falsy. *)
Definition str_or (x : option string) (default : string) : string :=
  match x with
  | Some s => if String.eqb s "" then default else s
  | None => default
  end.

(** [bool(x)] on an [Optional[str]]. *)
Definition str_truthy (x : option string) : bool :=
  match x with
  | Some s => negb (String.eqb s "")
  | None => false
  end.

(** [f"{x}"] for an [Optional[str]]. *)
Definition format_optional_str (x : option string) : string :=
  match x with
  | Some s => s
  | None => "None"
  end.

(** [f"{n}"] for an [int]. *)
Definition format_int (n : Z) : string := pretty n.

(** [f"{n}"] for an [Optional[int]]. *)
Definition format_optional_int (n : option Z) : string :=
  match n with
  | Some z => format_int z
  | None => "None"
  end.

(** A dynamically typed attribute value, as [getattr] returns it. *)
Inductive pyvalue : Type :=
  | PyNone
  | PyInt (z : Z)
  | PyStr (s : string).

Definition truthy (v : pyvalue) : bool :=
  match v with
  | PyNone => false
  | PyInt z => negb (z =? 0)
  | PyStr s => negb (String.eqb s "")
  end.

Definition format_value (v : pyvalue) : string :=
  match v with
  | PyNone => "None"
  | PyInt z => format_int z
  | PyStr s => s
  end.

(** [sub in s]: does [sub] occur in [s] as a contiguous run? *)
Fixpoint starts_with (sub s : string) : bool :=
  match sub, s with
  | EmptyString, _ => true
  | String a sub', String b s' => Ascii.eqb a b && starts_with sub' s'
  | String _ _, EmptyString => false
  end.

Fixpoint str_in (sub s : string) : bool :=
  starts_with sub s ||
  match s with
  | EmptyString => false
  | String _ s' => str_in sub s'
  end.

(** The same as a proposition. *)
Definition occurs_in (sub s : string) : Prop :=
  ∃ before after, s = before +:+ sub +:+ after.

(** ** Exceptions *)

Inductive exn : Type :=
  | IndexError
  | OutputParserException (text : string)
  | Exception (description : string).

Inductive result (A : Type) : Type :=
  | Ok (a : A)
  | Raise (e : exn).
Arguments Ok {A} a.
Arguments Raise {A} e.

(** [l[i]] on a Python list: a negative index counts from the end, an index
    out of range raises. *)
Definition list_getitem {A : Type} (l : list A) (i : Z) : result A :=
  let n := Z.of_nat (length l) in
  let j := if i <? 0 then i + n else i in
  if (0 <=? j) && (j <? n) then
    match l !! Z.to_nat j with
    | Some x => Ok x
    | None => Raise IndexError
    end
  else Raise IndexError.

(** [range(lo, hi)]. *)
Definition range (lo hi : Z) : list Z := seqZ lo (hi - lo).

(** ** models.py *)

Module Scene.
Record t : Type := mk {
  characters : option string;
  environment : option string;
  timing_of_day : option string;
  scene_duration : option string;
  scene_goal : option string;
  user_recommendation : option string;
}.

(** [Scene()]: every field takes its default, [None]. *)
Definition new : t := mk None None None None None None.
End Scene.

Module AdStoryboardRequest.
Record t : Type := mk {
  product_name : option string;
  product_description : option string;
  target_audience : option string;
  selling_point : option string;
  key_message : option string;
  duration_of_ad : option string;
  tone : option string;
  purpose : option string;
  country : option string;
  number_of_scenes : option Z;
  scenes : option (list Scene.t);
}.
End AdStoryboardRequest.

Module AdDetails.
Record t : Type := mk {
  product_name : string;
  product_description : string;
  target_audience : string;
  selling_point : string;
  key_message : string;
  duration_of_ad : string;
  tone : string;
  purpose : string;
  country : string;
  number_of_scenes : Z;
}.
End AdDetails.

Module SceneOutput.
Record t : Type := mk {
  scene_number : Z;
  characters : string;
  environment : string;
  timing_of_day : string;
  scene_duration : string;
  scene_goal : string;
  visuals : string;
  camera_work : string;
  sound_design : string;
  transition : string;
}.

(** [getattr(scene, name, default)]: the declared fields are the only
    attributes an instance carries. *)
Definition getattr (scene : t) (name : string) (default : pyvalue) : pyvalue :=
  if String.eqb name "scene_number" then PyInt (scene_number scene)
  else if String.eqb name "characters" then PyStr (characters scene)
  else if String.eqb name "environment" then PyStr (environment scene)
  else if String.eqb name "timing_of_day" then PyStr (timing_of_day scene)
  else if String.eqb name "scene_duration" then PyStr (scene_duration scene)
  else if String.eqb name "scene_goal" then PyStr (scene_goal scene)
  else if String.eqb name "visuals" then PyStr (visuals scene)
  else if String.eqb name "camera_work" then PyStr (camera_work scene)
  else if String.eqb name "sound_design" then PyStr (sound_design scene)
  else if String.eqb name "transition" then PyStr (transition scene)
  else default.
End SceneOutput.

Module CharacterDetails.
Record t : Type := mk {
  name : string;
  appearance : string;
  clothing : string;
  expression : string;
}.
End CharacterDetails.

Module TextToImagePrompt.
Record t : Type := mk {
  scene_number : Z;
  characters : list CharacterDetails.t;
  action : string;
  environment_location : string;
  environment_lighting : string;
  environment_details : string;
  style_type : string;
  style_technique : string;
  style_reference : string;
}.

(** [prompt.scene_number = n] *)
Definition set_scene_number (n : Z) (p : t) : t :=
  mk n (characters p) (action p) (environment_location p)
     (environment_lighting p) (environment_details p) (style_type p)
     (style_technique p) (style_reference p).
End TextToImagePrompt.

Module ImageToVideoPrompt.
Record t : Type := mk {
  scene_number : Z;
  characters : list CharacterDetails.t;
  action : string;
  environment_location : string;
  environment_lighting : string;
  environment_details : string;
  style_type : string;
  style_technique : string;
  style_reference : string;
}.

(** [prompt.scene_number = n] *)
Definition set_scene_number (n : Z) (p : t) : t :=
  mk n (characters p) (action p) (environment_location p)
     (environment_lighting p) (environment_details p) (style_type p)
     (style_technique p) (style_reference p).
End ImageToVideoPrompt.

Module StoryboardOutput.
Record t : Type := mk {
  ad_details : AdDetails.t;
  scenes : list SceneOutput.t;
  txt2img_prompts : list TextToImagePrompt.t;
  img2vid_prompts : list ImageToVideoPrompt.t;
}.
End StoryboardOutput.

(** ** JSON values and the interface of an output parser *)

#[warnings="-register-all"]
Inductive json : Type :=
  | JNull
  | JBool (b : bool)
  | JInt (z : Z)
  | JStr (s : string)
  | JList (l : list json)
  | JDict (m : gmap string json).

(** The output parser of a shape, as the generators use it. *)
Record PydanticOutputParser (T : Type) : Type := {
  get_format_instructions : string;
  parse : string → result T;
}.
Arguments get_format_instructions {T} _.
Arguments parse {T} _ _.

(** ** The instruction texts of ad_details_generator.py *)

(** [prompt] of [generate_ad_details]. *)
Definition ad_details_prompt (format_instructions : string) (request : AdStoryboardRequest.t) : string :=
  "
        Based on the provided advertisement information, generate comprehensive ad details.
        Fill in any missing information based on the context and marketing best practices.
        
        " +:+
  format_instructions +:+
  "
        
        Input information:
        - Product Name: " +:+
  str_or (AdStoryboardRequest.product_name request) "Not specified" +:+
  "
        - Product Description: " +:+
  str_or (AdStoryboardRequest.product_description request) "Not specified" +:+
  "
        - Target Audience: " +:+
  str_or (AdStoryboardRequest.target_audience request) "Not specified" +:+
  "
        - Selling Point: " +:+
  str_or (AdStoryboardRequest.selling_point request) "Not specified" +:+
  "
        - Key Message: " +:+
  str_or (AdStoryboardRequest.key_message request) "Not specified" +:+
  "
        - Duration of Ad: " +:+
  str_or (AdStoryboardRequest.duration_of_ad request) "Not specified" +:+
  "
        - Tone: " +:+
  str_or (AdStoryboardRequest.tone request) "Not specified" +:+
  "
        - Purpose: " +:+
  str_or (AdStoryboardRequest.purpose request) "Not specified" +:+
  "
        - Country: " +:+
  str_or (AdStoryboardRequest.country request) "Not specified" +:+
  "
        - Number of Scenes: " +:+
  format_optional_int (AdStoryboardRequest.number_of_scenes request) +:+
  "
        
        Guidelines:
        1. If a product name is not provided, create a unique and memorable name based on the product description.
        2. If product description is not provided, create a comprehensive description of what the product is and its benefits.
        3. If target audience is not specified, determine the most appropriate target audience based on the product.
        4. If selling point is not specified, identify the most compelling unique value proposition.
        5. If key message is not specified, craft a resonant core message aligned with the selling point.
        6. If duration is not specified, suggest an appropriate length based on industry standards.
        7. If tone is not specified, recommend a tone that matches the product and target audience.
        8. If purpose is not specified, determine whether it's for brand awareness, product launch, etc.
        9. If country is not specified, use " +:+ quoted "International" +:+ " or " +:+ quoted "Global" +:+ ".

        For all responses, be specific, creative, and marketing-focused.
        ".

(** [retry_prompt] of [generate_ad_details]. *)
Definition ad_details_retry_prompt (prompt : string) (request : AdStoryboardRequest.t) : string :=
  "
            " +:+
  prompt +:+
  "
            
            Your previous response couldn't be parsed correctly. Please ensure you structure your response 
            in a valid JSON format following the exact structure below:
            
            ```json
            {
                " +:+ quoted "product_name" +:+ ": " +:+ quoted "Product Name" +:+ ",
                " +:+ quoted "product_description" +:+ ": " +:+ quoted "Comprehensive product description" +:+ ",
                " +:+ quoted "target_audience" +:+ ": " +:+ quoted "Specific target demographic" +:+ ",
                " +:+ quoted "selling_point" +:+ ": " +:+ quoted "Main unique value proposition" +:+ ",
                " +:+ quoted "key_message" +:+ ": " +:+ quoted "Core message for the ad" +:+ ",
                " +:+ quoted "duration_of_ad" +:+ ": " +:+ quoted "Duration in seconds/minutes" +:+ ",
                " +:+ quoted "tone" +:+ ": " +:+ quoted "Emotional tone of the ad" +:+ ",
                " +:+ quoted "purpose" +:+ ": " +:+ quoted "Purpose of the advertisement" +:+ ",
                " +:+ quoted "country" +:+ ": " +:+ quoted "Target market" +:+ ",
                " +:+ quoted "number_of_scenes" +:+ ": " +:+
  format_optional_int (AdStoryboardRequest.number_of_scenes request) +:+
  "
            }
            ```
            
            Provide only this JSON structure in your response, without any additional text.
            ".

(** ** The instruction texts of scene_generator.py *)

(** [priority_instructions] of [_generate_single_scene]. *)
Definition scene_priority_instructions (input_scene : Scene.t) : string :=
  if str_truthy (Scene.user_recommendation input_scene) then
  "
        CRITICAL USER SCENE DESCRIPTION - MUST INCLUDE VERBATIM:
        " +:+
  format_optional_str (Scene.user_recommendation input_scene) +:+
  "

        STRICT RULES:
        1. ALL elements below must align with this description
        2. NEVER contradict or omit any details from it
        3. Only add technical details (camera/sound) that support this vision
        4. Preserve all:
        - Character actions 
        - Dialogue 
        - Key visuals 
            "
  else "".

(** [prompt] of [_generate_single_scene]. *)
Definition scene_prompt (format_instructions : string) (scene_number : Z)
    (input_scene : Scene.t) (ad_details : AdDetails.t) : string :=
  let priority_instructions := scene_priority_instructions input_scene in
  "
        Generate a detailed scene for an advertisement storyboard based on the provided information.
        
        
        Ad Details:
        - Product Name: " +:+
  AdDetails.product_name ad_details +:+
  "
        - Product Description: " +:+
  AdDetails.product_description ad_details +:+
  "
        - Target Audience: " +:+
  AdDetails.target_audience ad_details +:+
  "
        - Selling Point: " +:+
  AdDetails.selling_point ad_details +:+
  "
        - Key Message: " +:+
  AdDetails.key_message ad_details +:+
  "
        - Duration of Ad: " +:+
  AdDetails.duration_of_ad ad_details +:+
  "
        - Tone: " +:+
  AdDetails.tone ad_details +:+
  "
        - Purpose: " +:+
  AdDetails.purpose ad_details +:+
  "
        - Country/Target Market: " +:+
  AdDetails.country ad_details +:+
  "
        
        Input Scene Details (Scene " +:+
  format_int scene_number +:+
  "):
        - Characters: " +:+
  str_or (Scene.characters input_scene) "Not specified" +:+
  "
        - Environment: " +:+
  str_or (Scene.environment input_scene) "Not specified" +:+
  "
        - Time of Day: " +:+
  str_or (Scene.timing_of_day input_scene) "Not specified" +:+
  "
        - Scene Duration: " +:+
  str_or (Scene.scene_duration input_scene) "Not specified" +:+
  "
        - Scene Goal: " +:+
  str_or (Scene.scene_goal input_scene) "Not specified" +:+
  "
        - User Recommendations: " +:+
  str_or (Scene.user_recommendation input_scene) "Not specified (follow normal generation)" +:+
  "
        
        " +:+
  priority_instructions +:+
  "

        this is the format isntructions
        " +:+
  format_instructions +:+
  "

        Generation Rules:
        1. IF USER RECOMMENDATIONS EXIST:
        - Implement them EXACTLY as written
        - All other fields must support and align with them
        - Do not add interpretations or modifications
        2. IF NO USER RECOMMENDATIONS:
        - Generate comprehensive scene details following marketing best practices
        - Ensure alignment with ad details and product goals

        Guidelines for scene creation:
        1. If characters are not specified, create appropriate characters for the target audience and the target market.
        2. If environment is not specified, create a suitable setting based on the product and audience.
        3. If time of day is not specified, select an appropriate time that enhances the scene.
        4. If scene duration is not specified, suggest an appropriate duration based on the scene's importance and the duration of the ad.
        5. If scene goal is not specified, determine a goal that supports the overall ad purpose.
        6. Create detailed descriptions for each of these required output components:
           - Visual elements (environment details, character appearances, actions)
           - Camera work (angles, movements, focus points)
           - Sound design (music, effects, dialogue/narration)
           - Transition to the next scene
        7. Each scene should clearly contribute to the overall ad narrative and selling points.
        8. The scene must clearly mention the Key Message: " +:+
  AdDetails.key_message ad_details +:+
  "
        
        Be creative, specific, and focused on marketing effectiveness.
        ".

(** [retry_prompt] of [_generate_single_scene]. *)
Definition scene_retry_prompt (prompt : string) (scene_number : Z) : string :=
  "
            " +:+
  prompt +:+
  "
            
            Your previous response couldn't be parsed correctly. Please ensure you structure your response 
            in a valid JSON format following the exact structure below:
            
            ```json
            {
                " +:+ quoted "scene_number" +:+ ": " +:+
  format_int scene_number +:+
  ",
                " +:+ quoted "characters" +:+ ": " +:+ quoted "Detailed character descriptions" +:+ ",
                " +:+ quoted "environment" +:+ ": " +:+ quoted "Detailed environment description" +:+ ",
                " +:+ quoted "timing_of_day" +:+ ": " +:+ quoted "Specific time of day" +:+ ",
                " +:+ quoted "scene_duration" +:+ ": " +:+ quoted "Duration in seconds" +:+ ",
                " +:+ quoted "scene_goal" +:+ ": " +:+ quoted "Specific goal for this scene" +:+ ",
                " +:+ quoted "visuals" +:+ ": " +:+ quoted "Detailed visual elements description" +:+ ",
                " +:+ quoted "camera_work" +:+ ": " +:+ quoted "Camera angles and movements" +:+ ",
                " +:+ quoted "sound_design" +:+ ": " +:+ quoted "Music, effects, and dialogue" +:+ ",
                " +:+ quoted "transition" +:+ ": " +:+ quoted "Transition to the next scene" +:+ "
            }
            ```
            
            Provide only this JSON structure in your response, without any additional text.
            ".

(** [priority_instructions] of [_generate_single_txt2img_prompt]. *)
Definition txt2img_priority_instructions (scene : SceneOutput.t) : string :=
  let user_rec := SceneOutput.getattr scene "user_recommendation" PyNone in
  if truthy user_rec then
  "
            USER VISUAL INSTRUCTIONS (MUST FOLLOW EXACTLY):
            " +:+
  format_value user_rec +:+
  "

            RULES:
            1. These visual descriptions take PRECEDENCE over all generated content
            2. Translate them DIRECTLY into the image prompt without modification
            3. Ensure all prompt sections align with these instructions
            "
  else "".

(** [prompt] of [_generate_single_txt2img_prompt]. *)
Definition txt2img_prompt (format_instructions : string) (scene : SceneOutput.t) : string :=
  let priority_instructions := txt2img_priority_instructions scene in
  "

        Create a detailed text-to-image prompt for Scene " +:+
  format_int (SceneOutput.scene_number scene) +:+
  " following this EXACT format:
        " +:+
  format_instructions +:+
  "

        TEXT-TO-IMAGE PROMPT FOR SCENE " +:+
  format_int (SceneOutput.scene_number scene) +:+
  ":
        CHARACTERS:
        [For each character in the scene]
        - Character Name: [Character Name]
        - Appearance: [age, gender, distinctive physical features]
        - Clothing: [detailed outfit description + accessories]
        - Expression: [specific emotion + facial details]

        ACTION: 
        - [Precise single-moment action using active verbs]
        - *Example:* " +:+ quoted "Right hand gripping sword hilt while left arm shields face" +:+ "

        ENVIRONMENT:
        - Location: [specific setting + key objects]
        - Lighting: [time of day + light quality]
        - Details: [notable atmospheric elements]

        STYLE:
        - Type: Photorealistic CGI(MUST USE THIS EXACTLY)
        - Technique: [specific rendering technique like " +:+ quoted "tilt-shift depth of field" +:+ "]
        - Reference:Gregory Crewdson (MUST USE THIS EXACTLY)


        ---
        

        
        Scene Details to Incorporate:
        - Characters: " +:+
  SceneOutput.characters scene +:+
  "
        - Environment: " +:+
  SceneOutput.environment scene +:+
  "
        - Time of Day: " +:+
  SceneOutput.timing_of_day scene +:+
  "
        - Visuals: " +:+
  SceneOutput.visuals scene +:+
  "
        - Camera Work: " +:+
  SceneOutput.camera_work scene +:+
  "
        
        " +:+
  priority_instructions +:+
  "

        STRICT RULES:
        1. NEVER merge categories - keep CHARACTERS/ACTION/ENVIRONMENT/STYLE strictly separated
        2. The prompt must describe a SINGLE frozen moment (no sequential actions)
        3. Prioritize atomic details (e.g. " +:+ quoted "frayed red shoelace on left boot" +:+ ")
        4. If user instructions exist, implement them exactly as provided
        5. Use active voice and specific visual descriptors
        6. For scenes with multiple characters, include ALL characters with separate Appearance, Clothing, and Expression fields
        7. Format each character's details on separate lines as shown in the CHARACTER section
        ".

(** [retry_prompt] of [_generate_single_txt2img_prompt]. *)
Definition txt2img_retry_prompt (prompt : string) (scene : SceneOutput.t) : string :=
  "
                " +:+
  prompt +:+
  "
                
                Your previous response couldn't be parsed correctly. Please ensure you structure your response 
                in a valid JSON format following the exact structure below:
                
                ```json
                {
                    " +:+ quoted "scene_number" +:+ ": " +:+
  format_int (SceneOutput.scene_number scene) +:+
  ",
                    " +:+ quoted "characters" +:+ ": [
                        {
                            " +:+ quoted "name" +:+ ": " +:+ quoted "Character Name" +:+ ",
                            " +:+ quoted "appearance" +:+ ": " +:+ quoted "Detailed appearance description" +:+ ",
                            " +:+ quoted "clothing" +:+ ": " +:+ quoted "Detailed clothing description" +:+ ",
                            " +:+ quoted "expression" +:+ ": " +:+ quoted "Specific facial expression" +:+ "
                        }
                    ],
                    " +:+ quoted "action" +:+ ": " +:+ quoted "Precise single-moment action" +:+ ",
                    " +:+ quoted "environment_location" +:+ ": " +:+ quoted "Specific setting description" +:+ ",
                    " +:+ quoted "environment_lighting" +:+ ": " +:+ quoted "Detailed lighting description" +:+ ",
                    " +:+ quoted "environment_details" +:+ ": " +:+ quoted "Notable environmental elements" +:+ ",
                    " +:+ quoted "style_type" +:+ ": " +:+ quoted "Photorealistic CGI" +:+ ",
                    " +:+ quoted "style_technique" +:+ ": " +:+ quoted "Specific rendering technique" +:+ ",
                    " +:+ quoted "style_reference" +:+ ": " +:+ quoted "Gregory Crewdson" +:+ "
                }
            Provide only this JSON structure in your response, without any additional text.
            ".

(** [priority_instructions] of [_generate_single_img2vid_prompt]. *)
Definition img2vid_priority_instructions (scene : SceneOutput.t) : string :=
  let user_rec := SceneOutput.getattr scene "user_recommendation" PyNone in
  if truthy user_rec then
  "
            USER VISUAL INSTRUCTIONS (MUST FOLLOW EXACTLY):
            " +:+
  format_value user_rec +:+
  "
            
            RULES:
            1. These visual descriptions take PRECEDENCE over all generated content
            2. Translate them DIRECTLY into the video prompt without modification
            3. Ensure all prompt sections align with these instructions
            "
  else "".

(** One element of the list joined into the [Characters] line of the
    image-to-video prompt. *)
Definition character_line (char : CharacterDetails.t) : string :=
  "Character Name: " +:+ CharacterDetails.name char +:+
  ", Appearance: " +:+ CharacterDetails.appearance char +:+
  ", Clothing: " +:+ CharacterDetails.clothing char +:+
  ", Expression: " +:+ CharacterDetails.expression char.

(** [prompt] of [_generate_single_img2vid_prompt]. *)
Definition img2vid_prompt (format_instructions : string) (scene : SceneOutput.t)
    (txt2img_prompt : TextToImagePrompt.t) : string :=
  let priority_instructions := img2vid_priority_instructions scene in
  "
        Create a detailed image-to-video prompt for Scene " +:+
  format_int (SceneOutput.scene_number scene) +:+
  " following this EXACT format:
        " +:+
  format_instructions +:+
  "
        IMAGE-TO-VIDEO PROMPT FOR SCENE " +:+
  format_int (SceneOutput.scene_number scene) +:+
  ":
        CHARACTER:
`       [For each character in the scene]
        - Character Name: [Character Name]
        - Appearance: [age, gender, distinctive physical features]
        - Clothing: [detailed outfit description + accessories]
        - Expression: [specific emotion + facial details]`

        ACTION: 
        - Timed Action: [precise 0.5s-3s action with timing markers]
        - Object Interaction: [specific items being manipulated]
        - Motion FX: [required effects like " +:+ quoted "smear frames" +:+ " or " +:+ quoted "impact blur" +:+ "]

        ENVIRONMENT:
        - FG: [Interactive foreground elements with parallax details]
        - MG: [Midground setting + specific camera movement]
        - BG: [Atmospheric background + depth effects]
        - Lighting: [dynamic lighting changes if any]

        STYLE:
        - Type: Photorealistic CGI (MUST USE THIS EXACTLY)
        - Technique: [specific rendering technique like " +:+ quoted "motion blur + smear frames" +:+ "]
        - Reference: Gregory Crewdson (MUST USE THIS EXACTLY)
        - FPS: [required frame rate, typically 24 or 30]
        - Camera: [specific camera movement and lens details]
        - Negative Prompts: [elements to avoid in generation]

        ---
        
        
        
        BASE SCENE DETAILS:
        - Characters: " +:+
  SceneOutput.characters scene +:+
  "
        - Environment: " +:+
  SceneOutput.environment scene +:+
  "
        - Time of Day: " +:+
  SceneOutput.timing_of_day scene +:+
  "
        - Visuals: " +:+
  SceneOutput.visuals scene +:+
  "
        - Camera Work: " +:+
  SceneOutput.camera_work scene +:+
  "
        
        TEXT-TO-IMAGE PROMPT TO ANIMATE:
        - Characters: " +:+
  String.concat ", " (character_line <$> TextToImagePrompt.characters txt2img_prompt) +:+
  "
        - Action: " +:+
  TextToImagePrompt.action txt2img_prompt +:+
  "
        - Environment: " +:+
  TextToImagePrompt.environment_location txt2img_prompt +:+
  ", " +:+
  TextToImagePrompt.environment_lighting txt2img_prompt +:+
  "
        - Style: " +:+
  TextToImagePrompt.style_type txt2img_prompt +:+
  ", " +:+
  TextToImagePrompt.style_technique txt2img_prompt +:+
  "
        
        " +:+
  priority_instructions +:+
  "
        WAN2.1 STRICT RULES:
        1. Time ALL actions (e.g. " +:+ quoted "1.2s sword draw from scabbard" +:+ ")
        2. Specify hair/cloth physics (e.g. " +:+ quoted "left pigtail swings 30° right on impact" +:+ ")
        3. Use anime motion terms: " +:+ quoted "smear" +:+ ", " +:+ quoted "impact frame" +:+ ", " +:+ quoted "stretch frame" +:+ "
        4. Camera MUST move (no static shots) - specify movement type
        5. Include parallax and layered depth in environment
        6. Use exact durations for all actions and transitions
        7. Each prompt must represent a SINGLE high-impact motion sequence
        8. Specify at least 3 keyframes in the action description
        9. For scenes with multiple characters, include ALL characters with separate Appearance, Clothing Physics, Expression, and Base Pose fields
        10. Format each character's details on separate lines as shown in the CHARACTER section
        ".

(** [retry_prompt] of [_generate_single_img2vid_prompt]. *)
Definition img2vid_retry_prompt (prompt : string) (scene : SceneOutput.t) : string :=
  "
            " +:+
  prompt +:+
  "
        
            Your previous response couldn't be parsed correctly. Please ensure you structure your response 
            in a valid JSON format following the exact structure below:
            
            ```json
            {
                " +:+ quoted "scene_number" +:+ ": " +:+
  format_int (SceneOutput.scene_number scene) +:+
  ",
                " +:+ quoted "characters" +:+ ": [
                    {
                        " +:+ quoted "name" +:+ ": " +:+ quoted "Character Name" +:+ ",
                        " +:+ quoted "appearance" +:+ ": " +:+ quoted "1girl/1boy, age, body type with hair motion details" +:+ ",
                        " +:+ quoted "clothing" +:+ ": " +:+ quoted "Clothing with physics description" +:+ ",
                        " +:+ quoted "expression" +:+ ": " +:+ quoted "Expression with timing details" +:+ ",
                        " +:+ quoted "base_pose" +:+ ": " +:+ quoted "Starting pose before action" +:+ "
                    }
                ],
                " +:+ quoted "action" +:+ ": " +:+ quoted "Timed action with object interaction and motion FX" +:+ ",
                " +:+ quoted "environment_location" +:+ ": " +:+ quoted "FG/MG/BG with parallax details" +:+ ",
                " +:+ quoted "environment_lighting" +:+ ": " +:+ quoted "Dynamic lighting description" +:+ ",
                " +:+ quoted "environment_details" +:+ ": " +:+ quoted "Layered environment specifics" +:+ ",
                " +:+ quoted "style_type" +:+ ": " +:+ quoted "Photorealistic CGI" +:+ ",
                " +:+ quoted "style_technique" +:+ ": " +:+ quoted "Specific animation technique" +:+ ",
                " +:+ quoted "style_reference" +:+ ": " +:+ quoted "Gregory Crewdson" +:+ "
            }
    Provide only this JSON structure in your response, without any additional text.
    ".

(** ** Validation of a decoded JSON object against a shape

    [PydanticOutputParser.parse] decodes the text to a JSON value and
    validates it against the shape.  The decoder and the validators of the
    scalar types belong to the libraries; what [models.py] declares is which
    fields a shape has, which ones are required and which default the others
    take. *)

Section Validation.

(** The validators of a [str] and of an [int] field. *)
Variable str_validate : json → option string.
Variable int_validate : json → option Z.

(** The decoder from a model text to a JSON value, [None] when it raises. *)
Variable parse_json : string → option json.

(** One field of a shape: the value under its name is validated; a field
    that is absent takes its default, and is an error when it has none. *)
Definition field {A : Type} (validate : json → option A) (default : option A)
    (name : string) (obj : gmap string json) : option A :=
  match obj !! name with
  | Some v => validate v
  | None => default
  end.

Definition CharacterDetails_validate (v : json) : option CharacterDetails.t :=
  match v with
  | JDict obj =>
      name ← field str_validate None "name" obj;
      appearance ← field str_validate None "appearance" obj;
      clothing ← field str_validate None "clothing" obj;
      expression ← field str_validate None "expression" obj;
      Some (CharacterDetails.mk name appearance clothing expression)
  | _ => None
  end.

(** A [List[CharacterDetails]] field. *)
Definition characters_validate (v : json) : option (list CharacterDetails.t) :=
  match v with
  | JList l => mapM CharacterDetails_validate l
  | _ => None
  end.

Definition TextToImagePrompt_validate (v : json) : option TextToImagePrompt.t :=
  match v with
  | JDict obj =>
      scene_number ← field int_validate None "scene_number" obj;
      characters ← field characters_validate None "characters" obj;
      action ← field str_validate None "action" obj;
      environment_location ← field str_validate None "environment_location" obj;
      environment_lighting ← field str_validate None "environment_lighting" obj;
      environment_details ← field str_validate None "environment_details" obj;
      style_type ← field str_validate (Some "Photorealistic CGI") "style_type" obj;
      style_technique ← field str_validate None "style_technique" obj;
      style_reference ← field str_validate (Some "Gregory Crewdson") "style_reference" obj;
      Some (TextToImagePrompt.mk scene_number characters action
              environment_location environment_lighting environment_details
              style_type style_technique style_reference)
  | _ => None
  end.

Definition ImageToVideoPrompt_validate (v : json) : option ImageToVideoPrompt.t :=
  match v with
  | JDict obj =>
      scene_number ← field int_validate None "scene_number" obj;
      characters ← field characters_validate None "characters" obj;
      action ← field str_validate None "action" obj;
      environment_location ← field str_validate None "environment_location" obj;
      environment_lighting ← field str_validate None "environment_lighting" obj;
      environment_details ← field str_validate None "environment_details" obj;
      style_type ← field str_validate (Some "Photorealistic CGI") "style_type" obj;
      style_technique ← field str_validate None "style_technique" obj;
      style_reference ← field str_validate (Some "Gregory Crewdson") "style_reference" obj;
      Some (ImageToVideoPrompt.mk scene_number characters action
              environment_location environment_lighting environment_details
              style_type style_technique style_reference)
  | _ => None
  end.

Definition AdDetails_validate (v : json) : option AdDetails.t :=
  match v with
  | JDict obj =>
      product_name ← field str_validate None "product_name" obj;
      product_description ← field str_validate None "product_description" obj;
      target_audience ← field str_validate None "target_audience" obj;
      selling_point ← field str_validate None "selling_point" obj;
      key_message ← field str_validate None "key_message" obj;
      duration_of_ad ← field str_validate None "duration_of_ad" obj;
      tone ← field str_validate None "tone" obj;
      purpose ← field str_validate None "purpose" obj;
      country ← field str_validate None "country" obj;
      number_of_scenes ← field int_validate None "number_of_scenes" obj;
      Some (AdDetails.mk product_name product_description target_audience
              selling_point key_message duration_of_ad tone purpose country
              number_of_scenes)
  | _ => None
  end.

Definition SceneOutput_validate (v : json) : option SceneOutput.t :=
  match v with
  | JDict obj =>
      scene_number ← field int_validate None "scene_number" obj;
      characters ← field str_validate None "characters" obj;
      environment ← field str_validate None "environment" obj;
      timing_of_day ← field str_validate None "timing_of_day" obj;
      scene_duration ← field str_validate None "scene_duration" obj;
      scene_goal ← field str_validate None "scene_goal" obj;
      visuals ← field str_validate None "visuals" obj;
      camera_work ← field str_validate None "camera_work" obj;
      sound_design ← field str_validate None "sound_design" obj;
      transition ← field str_validate None "transition" obj;
      Some (SceneOutput.mk scene_number characters environment timing_of_day
              scene_duration scene_goal visuals camera_work sound_design
              transition)
  | _ => None
  end.

(** [PydanticOutputParser(pydantic_object=shape).parse(text)]: any failure of
    the decoding or of the validation is an [OutputParserException]. *)
Definition pydantic_parse {T : Type} (validate : json → option T)
    (text : string) : result T :=
  match parse_json text ≫= validate with
  | Some record => Ok record
  | None => Raise (OutputParserException text)
  end.

End Validation.

(** ** The generators *)

Section Generators.

(** The generative model: [generate_content] answers a prompt and moves the
    world on, or raises; [text] is the accessor [response.text], which may
    raise as well. *)
Variable World : Type.
Variable Response : Type.
Variable generate_content : string → World → result Response * World.
Variable text : Response → result string.

(** The parsers the two generator classes build in [__init__]. *)
Variable output_parser : PydanticOutputParser AdDetails.t.
Variable scene_output_parser : PydanticOutputParser SceneOutput.t.
Variable txt2img_output_parser : PydanticOutputParser TextToImagePrompt.t.
Variable img2vid_output_parser : PydanticOutputParser ImageToVideoPrompt.t.

(** The state of a run: the world of the model, and the prompts sent to it
    so far, oldest first. *)
Record state : Type := State {
  world : World;
  calls : list string;
}.

Definition M (A : Type) : Type := state → result A * state.

Definition ret {A : Type} (a : A) : M A := λ σ, (Ok a, σ).

Definition bind {A B : Type} (m : M A) (k : A → M B) : M B :=
  λ σ, match m σ with
       | (Ok a, σ') => k a σ'
       | (Raise e, σ') => (Raise e, σ')
       end.

(** A pure computation that may raise. *)
Definition lift {A : Type} (r : result A) : M A := λ σ, (r, σ).

(** [try: body  except Exception as e: handler(e)] *)
Definition try_except {A : Type} (body : M A) (handler : exn → M A) : M A :=
  λ σ, match body σ with
       | (Ok a, σ') => (Ok a, σ')
       | (Raise e, σ') => handler e σ'
       end.

Local Notation "'let!' x ':=' m 'in' k" := (bind m (λ x, k))
  (at level 10, x name, m at level 100, k at level 200).

(** [self.model.generate_content(prompt)] *)
Definition model_generate_content (prompt : string) : M Response :=
  λ σ, let '(r, w) := generate_content prompt (world σ) in
       (r, State w (calls σ ++ [prompt])).

(** [parser.parse(response.text)] *)
Definition parse_response {T : Type} (parser : PydanticOutputParser T)
    (response : Response) : result T :=
  match text response with
  | Ok t => parse parser t
  | Raise e => Raise e
  end.

(** [out = []; for x in xs: out.append(f(x))] followed by [return out]. *)
Fixpoint for_each {A B : Type} (f : A → M B) (xs : list A) (out : list B)
    : M (list B) :=
  match xs with
  | [] => ret out
  | x :: xs' => let! y := f x in for_each f xs' (out ++ [y])
  end.

(** *** ad_details_generator.py *)

Definition generate_ad_details (request : AdStoryboardRequest.t) : M AdDetails.t :=
  let format_instructions := get_format_instructions output_parser in
  let prompt := ad_details_prompt format_instructions request in
  let! response := model_generate_content prompt in
  try_except
    (lift (parse_response output_parser response))
    (λ e,
      let retry_prompt := ad_details_retry_prompt prompt request in
      let! retry_response := model_generate_content retry_prompt in
      lift (parse_response output_parser retry_response)).

(** *** scene_generator.py *)

(** The [try] block returns on success; the handler only builds
    [retry_prompt], and the two statements after the [try] run exactly when
    the handler did. *)
Definition _generate_single_scene (scene_number : Z) (input_scene : Scene.t)
    (ad_details : AdDetails.t) : M SceneOutput.t :=
  let format_instructions := get_format_instructions scene_output_parser in
  let prompt := scene_prompt format_instructions scene_number input_scene ad_details in
  let! response := model_generate_content prompt in
  try_except
    (lift (parse_response scene_output_parser response))
    (λ e,
      let retry_prompt := scene_retry_prompt prompt scene_number in
      let! retry_response := model_generate_content retry_prompt in
      lift (parse_response scene_output_parser retry_response)).

Definition generate_scenes (ad_details : AdDetails.t)
    (input_scenes : option (list Scene.t)) : M (list SceneOutput.t) :=
  let input_scenes :=
    match input_scenes with
    | Some (scene :: rest) => scene :: rest
    | Some [] | None => []
    end in
  let num_scenes := AdDetails.number_of_scenes ad_details in
  for_each
    (λ i,
      let! input_scene :=
        if i <=? Z.of_nat (length input_scenes)
        then lift (list_getitem input_scenes (i - 1))
        else ret Scene.new in
      _generate_single_scene i input_scene ad_details)
    (range 1 (num_scenes + 1)) [].

Definition _generate_single_txt2img_prompt (scene : SceneOutput.t)
    : M TextToImagePrompt.t :=
  let format_instructions := get_format_instructions txt2img_output_parser in
  let prompt := txt2img_prompt format_instructions scene in
  let! response := model_generate_content prompt in
  try_except
    (let! txt2img_prompt := lift (parse_response txt2img_output_parser response) in
     ret (TextToImagePrompt.set_scene_number (SceneOutput.scene_number scene) txt2img_prompt))
    (λ e,
      let retry_prompt := txt2img_retry_prompt prompt scene in
      let! retry_response := model_generate_content retry_prompt in
      let! txt2img_prompt := lift (parse_response txt2img_output_parser retry_response) in
      ret (TextToImagePrompt.set_scene_number (SceneOutput.scene_number scene) txt2img_prompt)).

Definition generate_text_to_image_prompts (scenes : list SceneOutput.t)
    : M (list TextToImagePrompt.t) :=
  for_each (λ scene, _generate_single_txt2img_prompt scene) scenes [].

Definition _generate_single_img2vid_prompt (scene : SceneOutput.t)
    (txt2img_prompt : TextToImagePrompt.t) : M ImageToVideoPrompt.t :=
  let format_instructions := get_format_instructions img2vid_output_parser in
  let prompt := img2vid_prompt format_instructions scene txt2img_prompt in
  let! response := model_generate_content prompt in
  try_except
    (let! img2vid_prompt := lift (parse_response img2vid_output_parser response) in
     ret (ImageToVideoPrompt.set_scene_number (SceneOutput.scene_number scene) img2vid_prompt))
    (λ e,
      let retry_prompt := img2vid_retry_prompt prompt scene in
      let! retry_response := model_generate_content retry_prompt in
      let! img2vid_prompt := lift (parse_response img2vid_output_parser retry_response) in
      ret (ImageToVideoPrompt.set_scene_number (SceneOutput.scene_number scene) img2vid_prompt)).

Definition generate_image_to_video_prompts (scenes : list SceneOutput.t)
    (txt2img_prompts : list TextToImagePrompt.t) : M (list ImageToVideoPrompt.t) :=
  for_each
    (λ '(scene, txt2img_prompt), _generate_single_img2vid_prompt scene txt2img_prompt)
    (zip scenes txt2img_prompts) [].

(** *** main.py: [AdStoryboardGenerator.generate] *)

Definition generate (request : AdStoryboardRequest.t) : M StoryboardOutput.t :=
  let! ad_details := generate_ad_details request in
  let! scenes := generate_scenes ad_details (AdStoryboardRequest.scenes request) in
  let! txt2img_prompts := generate_text_to_image_prompts scenes in
  let! img2vid_prompts := generate_image_to_video_prompts scenes txt2img_prompts in
  ret (StoryboardOutput.mk ad_details scenes txt2img_prompts img2vid_prompts).

End Generators.

Arguments State {World} world calls.
Arguments world {World} _.
Arguments calls {World} _.
Arguments ret {World A} a _.
Arguments bind {World A B} m k _.
Arguments lift {World A} r _.
Arguments try_except {World A} body handler _.
Arguments for_each {World A B} f xs out _.
Arguments model_generate_content {World Response} generate_content prompt _.
Arguments parse_response {Response} text {T} parser response.
Arguments generate_ad_details {World Response} generate_content text output_parser request _.
Arguments _generate_single_scene {World Response} generate_content text
  scene_output_parser scene_number input_scene ad_details _.
Arguments generate_scenes {World Response} generate_content text
  scene_output_parser ad_details input_scenes _.
Arguments _generate_single_txt2img_prompt {World Response} generate_content text
  txt2img_output_parser scene _.
Arguments generate_text_to_image_prompts {World Response} generate_content text
  txt2img_output_parser scenes _.
Arguments _generate_single_img2vid_prompt {World Response} generate_content text
  img2vid_output_parser scene txt2img_prompt _.
Arguments generate_image_to_video_prompts {World Response} generate_content text
  img2vid_output_parser scenes txt2img_prompts _.
Arguments generate {World Response} generate_content text output_parser
  scene_output_parser txt2img_output_parser img2vid_output_parser request _.

(** ** Auxiliary definitions for the statements *)

(** [s.endswith(suffix)] *)
Fixpoint ends_with (suffix s : string) : bool :=
  String.eqb suffix s ||
  match s with
  | EmptyString => false
  | String _ s' => ends_with suffix s'
  end.

(** The common shape of the four structured-generation call sites, spelled
    out on the model: one completion, one parse, and on a parse failure one
    more completion with the retry prompt and one more parse.  [fix_record]
    is what the call site does to a parsed record before it returns it. *)
Definition two_attempts {World Response T : Type}
    (generate_content : string → World → result Response * World)
    (text : Response → result string) (parser : PydanticOutputParser T)
    (fix_record : T → T) (prompt retry_prompt : string) (σ : state World)
    : result T * state World :=
  match generate_content prompt (world σ) with
  | (Raise e, w1) => (Raise e, State w1 (calls σ ++ [prompt]))
  | (Ok response, w1) =>
      match parse_response text parser response with
      | Ok record => (Ok (fix_record record), State w1 (calls σ ++ [prompt]))
      | Raise _ =>
          match generate_content retry_prompt w1 with
          | (Raise e, w2) => (Raise e, State w2 (calls σ ++ [prompt; retry_prompt]))
          | (Ok retry_response, w2) =>
              match parse_response text parser retry_response with
              | Ok record =>
                  (Ok (fix_record record), State w2 (calls σ ++ [prompt; retry_prompt]))
              | Raise e => (Raise e, State w2 (calls σ ++ [prompt; retry_prompt]))
              end
          end
      end
  end.

(** What the specification asks of a structured-generation call [call] with
    the prompts [prompt] and [retry_prompt]: when the model answers, a first
    parse that succeeds ends the call after one completion; when it fails
    and the model answers the retry prompt, the call ends after the second
    completion, with the second record when the retry parses and with the
    exception of the second parse when it does not. *)
Definition at_most_two_attempts {World Response T : Type}
    (generate_content : string → World → result Response * World)
    (text : Response → result string) (parser : PydanticOutputParser T)
    (fix_record : T → T) (prompt retry_prompt : string)
    (call : state World → result T * state World) : Prop :=
  ∀ (σ : state World) (response : Response) (w1 : World),
    generate_content prompt (world σ) = (Ok response, w1) →
    match parse_response text parser response with
    | Ok record =>
        call σ = (Ok (fix_record record), State w1 (calls σ ++ [prompt]))
    | Raise _ =>
        ∀ (retry_response : Response) (w2 : World),
          generate_content retry_prompt w1 = (Ok retry_response, w2) →
          match parse_response text parser retry_response with
          | Ok record =>
              call σ = (Ok (fix_record record),
                        State w2 (calls σ ++ [prompt; retry_prompt]))
          | Raise e =>
              call σ = (Raise e, State w2 (calls σ ++ [prompt; retry_prompt]))
          end
    end.

(** The critical section of the scene prompt around an override [r]. *)
Definition critical_section (r : string) : string :=
  "CRITICAL USER SCENE DESCRIPTION - MUST INCLUDE VERBATIM:" +:+ nl +:+
  "        " +:+ r +:+ nl +:+ nl +:+ "        STRICT RULES:".

(** One line of the input information of the Ad Details prompt. *)
Definition request_line (label value : string) : string :=
  "- " +:+ label +:+ ": " +:+ value +:+ nl.

(** A request with another scene list. *)
Definition with_scenes (scenes : option (list Scene.t))
    (request : AdStoryboardRequest.t) : AdStoryboardRequest.t :=
  AdStoryboardRequest.mk
    (AdStoryboardRequest.product_name request)
    (AdStoryboardRequest.product_description request)
    (AdStoryboardRequest.target_audience request)
    (AdStoryboardRequest.selling_point request)
    (AdStoryboardRequest.key_message request)
    (AdStoryboardRequest.duration_of_ad request)
    (AdStoryboardRequest.tone request)
    (AdStoryboardRequest.purpose request)
    (AdStoryboardRequest.country request)
    (AdStoryboardRequest.number_of_scenes request)
    scenes.

(** [loop_run f σ xs ys σ']: started in the state [σ], the calls of [f] on
    the elements of [xs], one after the other and each in the state the one
    before it left, all returned; [ys] are their results in order and [σ']
    is the state the last one left. *)
Inductive loop_run {World A B : Type}
    (f : A → state World → result B * state World)
    : state World → list A → list B → state World → Prop :=
  | loop_run_nil (σ : state World) : loop_run f σ [] [] σ
  | loop_run_cons (σ σ1 σ' : state World) (x : A) (y : B)
      (xs : list A) (ys : list B) :
      f x σ = (Ok y, σ1) →
      loop_run f σ1 xs ys σ' →
      loop_run f σ (x :: xs) (y :: ys) σ'.

(** The input scene [generate_scenes] hands to the call for scene [i]
    (counted from 1), as the specification words it: the [i]-th supplied one
    when there is one, a scene with every field unspecified otherwise. *)
Definition supplied_scene (input_scenes : option (list Scene.t)) (i : Z) : Scene.t :=
  match input_scenes with
  | Some l => default Scene.new (l !! Z.to_nat (i - 1))
  | None => Scene.new
  end.

(** The nine text fields of a request with the labels of their lines in the
    instruction body of the Ad Details stage. *)
Definition request_text_fields : list (string * (AdStoryboardRequest.t → option string)) :=
  [ ("Product Name", AdStoryboardRequest.product_name);
    ("Product Description", AdStoryboardRequest.product_description);
    ("Target Audience", AdStoryboardRequest.target_audience);
    ("Selling Point", AdStoryboardRequest.selling_point);
    ("Key Message", AdStoryboardRequest.key_message);
    ("Duration of Ad", AdStoryboardRequest.duration_of_ad);
    ("Tone", AdStoryboardRequest.tone);
    ("Purpose", AdStoryboardRequest.purpose);
    ("Country", AdStoryboardRequest.country) ].

(** What a structured-generation call [call] does when a completion itself
    raises: the exception of the completion leaves the call, after the one
    prompt when it is the first completion, after the two prompts when it is
    the completion of the retry. *)
Definition completion_errors_propagate {World Response T : Type}
    (generate_content : string → World → result Response * World)
    (text : Response → result string) (parser : PydanticOutputParser T)
    (prompt retry_prompt : string)
    (call : state World → result T * state World) : Prop :=
  ∀ (σ : state World),
    (∀ e w1,
       generate_content prompt (world σ) = (Raise e, w1) →
       call σ = (Raise e, State w1 (calls σ ++ [prompt]))) ∧
    (∀ response w1 e1 e w2,
       generate_content prompt (world σ) = (Ok response, w1) →
       parse_response text parser response = Raise e1 →
       generate_content retry_prompt w1 = (Raise e, w2) →
       call σ = (Raise e, State w2 (calls σ ++ [prompt; retry_prompt]))).

(** An exception that comes from outside the generators: from a completion,
    from the accessor of a response, or from one of the four parsers. *)
Definition raised_outside {World Response : Type}
    (generate_content : string → World → result Response * World)
    (text : Response → result string)
    (output_parser : PydanticOutputParser AdDetails.t)
    (scene_output_parser : PydanticOutputParser SceneOutput.t)
    (txt2img_output_parser : PydanticOutputParser TextToImagePrompt.t)
    (img2vid_output_parser : PydanticOutputParser ImageToVideoPrompt.t)
    (e : exn) : Prop :=
  (∃ prompt w w', generate_content prompt w = (Raise e, w')) ∨
  (∃ response, text response = Raise e) ∨
  (∃ t, parse output_parser t = Raise e) ∨
  (∃ t, parse scene_output_parser t = Raise e) ∨
  (∃ t, parse txt2img_output_parser t = Raise e) ∨
  (∃ t, parse img2vid_output_parser t = Raise e).

(** The nine text fields of the Ad Details with the labels of their lines in
    the scene prompt. *)
Definition ad_details_fields : list (string * (AdDetails.t → string)) :=
  [ ("Product Name", AdDetails.product_name);
    ("Product Description", AdDetails.product_description);
    ("Target Audience", AdDetails.target_audience);
    ("Selling Point", AdDetails.selling_point);
    ("Key Message", AdDetails.key_message);
    ("Duration of Ad", AdDetails.duration_of_ad);
    ("Tone", AdDetails.tone);
    ("Purpose", AdDetails.purpose);
    ("Country/Target Market", AdDetails.country) ].

(** What one structured-generation call adds to the list of the prompts
    sent: its prompt, or its prompt and then its retry prompt. *)
Definition one_or_two (prompt retry_prompt : string) (new : list string) : Prop :=
  new = [prompt] ∨ new = [prompt; retry_prompt].

(** The prompts of the call for scene [i] of [generate_scenes]. *)
Definition scene_call_sends (format_instructions : string)
    (ad_details : AdDetails.t) (input_scenes : option (list Scene.t))
    (i : Z) (new : list string) : Prop :=
  let prompt :=
    scene_prompt format_instructions i (supplied_scene input_scenes i) ad_details in
  one_or_two prompt (scene_retry_prompt prompt i) new.

(** The prompts of the text-to-image call for a scene. *)
Definition txt2img_call_sends (format_instructions : string)
    (scene : SceneOutput.t) (new : list string) : Prop :=
  let prompt := txt2img_prompt format_instructions scene in
  one_or_two prompt (txt2img_retry_prompt prompt scene) new.

(** The prompts of the image-to-video call for a scene and its image
    prompt. *)
Definition img2vid_call_sends (format_instructions : string)
    (pair : SceneOutput.t * TextToImagePrompt.t) (new : list string) : Prop :=
  let prompt := img2vid_prompt format_instructions pair.1 pair.2 in
  one_or_two prompt (img2vid_retry_prompt prompt pair.1) new.

(** The keys a JSON object must have to validate against each shape: the
    fields that [models.py] declares without a default. *)
Definition AdDetails_required : list string :=
  [ "product_name"; "product_description"; "target_audience"; "selling_point";
    "key_message"; "duration_of_ad"; "tone"; "purpose"; "country";
    "number_of_scenes" ].

Definition SceneOutput_required : list string :=
  [ "scene_number"; "characters"; "environment"; "timing_of_day";
    "scene_duration"; "scene_goal"; "visuals"; "camera_work"; "sound_design";
    "transition" ].

Definition prompt_required : list string :=
  [ "scene_number"; "characters"; "action"; "environment_location";
    "environment_lighting"; "environment_details"; "style_technique" ].

(** The five text fields of a scene input with the labels of their lines in
    the scene prompt. *)
Definition scene_text_fields : list (string * (Scene.t → option string)) :=
  [ ("Characters", Scene.characters);
    ("Environment", Scene.environment);
    ("Time of Day", Scene.timing_of_day);
    ("Scene Duration", Scene.scene_duration);
    ("Scene Goal", Scene.scene_goal) ].

(** The five fields of a scene output that the two derived prompts quote,
    with the labels of their lines. *)
Definition scene_detail_fields : list (string * (SceneOutput.t → string)) :=
  [ ("Characters", SceneOutput.characters);
    ("Environment", SceneOutput.environment);
    ("Time of Day", SceneOutput.timing_of_day);
    ("Visuals", SceneOutput.visuals);
    ("Camera Work", SceneOutput.camera_work) ].

(** A scene output with other values in the four fields that the derived
    prompts do not quote. *)
Definition with_unquoted_fields (scene_duration scene_goal sound_design transition : string)
    (scene : SceneOutput.t) : SceneOutput.t :=
  SceneOutput.mk (SceneOutput.scene_number scene) (SceneOutput.characters scene)
    (SceneOutput.environment scene) (SceneOutput.timing_of_day scene)
    scene_duration scene_goal (SceneOutput.visuals scene)
    (SceneOutput.camera_work scene) sound_design transition.

(** ** Concrete models and parsers, for runs on concrete inputs *)

Module Scripted.

(** A model that answers from a script: the world is the list of the texts
    still to come, whatever the prompts are. *)
Definition generate_content (prompt : string) (w : list string)
    : result string * list string :=
  match w with
  | answer :: w' => (Ok answer, w')
  | [] => (Raise (Exception "no answer left"), [])
  end.

(** A model with one answer to every prompt; the world counts the calls. *)
Definition always (answer : string) (prompt : string) (w : nat)
    : result string * nat :=
  (Ok answer, S w).

(** A model that answers [answer] to the prompts of the list and [other] to
    every other prompt. *)
Definition answering (prompts : list string) (answer other : string)
    (prompt : string) (w : nat) : result string * nat :=
  (Ok (if existsb (String.eqb prompt) prompts then answer else other), S w).

Definition text (response : string) : result string := Ok response.

(** A parser that accepts the texts of a table and raises on any other. *)
Definition table_parser {T : Type} (format_instructions : string)
    (table : list (string * T)) : PydanticOutputParser T :=
  {| get_format_instructions := format_instructions;
     parse := λ t,
       match list_find (λ row, row.1 = t) table with
       | Some (_, (_, record)) => Ok record
       | None => Raise (OutputParserException t)
       end |}.

Definition strict_str (v : json) : option string :=
  match v with JStr s => Some s | _ => None end.

Definition strict_int (v : json) : option Z :=
  match v with JInt z => Some z | _ => None end.

Definition ad_details : AdDetails.t :=
  AdDetails.mk "QuietBeats" "Noise-cancelling headphones" "Commuters"
    "Noise cancellation" "Isolate yourself from the world" "30 seconds"
    "Calm" "Product launch" "International" 1.

Definition ad_details_two_scenes : AdDetails.t :=
  AdDetails.mk "QuietBeats" "Noise-cancelling headphones" "Commuters"
    "Noise cancellation" "Isolate yourself from the world" "30 seconds"
    "Calm" "Product launch" "International" 2.

(** A parsed scene whose number is 7. *)
Definition scene_seven : SceneOutput.t :=
  SceneOutput.mk 7 "A commuter" "A crowded train" "Morning" "5 seconds"
    "Show the noise" "People talking loudly" "Handheld close-up"
    "Train noise fading out" "Cut".

Definition scene_other : SceneOutput.t :=
  SceneOutput.mk 2 "A student" "A library" "Evening" "4 seconds"
    "Show the calm" "A student reading" "Slow pan" "Silence" "Fade".

Definition character : CharacterDetails.t :=
  CharacterDetails.mk "Maya" "Woman in her thirties" "Grey coat" "Relieved".

(** A parsed image prompt and a parsed video prompt whose number is 9. *)
Definition image_nine : TextToImagePrompt.t :=
  TextToImagePrompt.mk 9 [character] "Puts the headphones on"
    "Train carriage" "Cold morning light" "Blurred passengers"
    "Photorealistic CGI" "Shallow depth of field" "Gregory Crewdson".

Definition video_nine : ImageToVideoPrompt.t :=
  ImageToVideoPrompt.mk 9 [character] "0.5s raises the headphones"
    "FG seats, MG aisle, BG windows" "Light flickers" "Layered carriage"
    "Photorealistic CGI" "Motion blur" "Gregory Crewdson".

Definition output_parser : PydanticOutputParser AdDetails.t :=
  table_parser "FORMAT" [("details", ad_details)].
Definition scene_output_parser : PydanticOutputParser SceneOutput.t :=
  table_parser "FORMAT" [("scene", scene_seven); ("other", scene_other)].
Definition txt2img_output_parser : PydanticOutputParser TextToImagePrompt.t :=
  table_parser "FORMAT" [("image", image_nine)].
Definition img2vid_output_parser : PydanticOutputParser ImageToVideoPrompt.t :=
  table_parser "FORMAT" [("video", video_nine)].

(** The prompt and the retry prompt of the first of two scenes, when no
    scene input is supplied. *)
Definition first_scene_prompt : string :=
  scene_prompt "FORMAT" 1 Scene.new ad_details_two_scenes.

Definition first_scene_prompts : list string :=
  [first_scene_prompt; scene_retry_prompt first_scene_prompt 1].

(** A scene input with a verbatim override, and a request that carries it. *)
Definition override : string := "character waves at camera in slow motion".

Definition scene_with_override : Scene.t :=
  Scene.mk None None None None None (Some override).

Definition request : AdStoryboardRequest.t :=
  AdStoryboardRequest.mk (Some "QuietBeats") (Some "Noise-cancelling headphones")
    (Some "Commuters") (Some "Noise cancellation")
    (Some "Isolate yourself from the world") (Some "30 seconds") (Some "Calm")
    (Some "Product launch") (Some "International") (Some 1)
    (Some [scene_with_override]).

(** The same request with no scene count and no scene list. *)
Definition request_without_count : AdStoryboardRequest.t :=
  AdStoryboardRequest.mk (Some "QuietBeats") (Some "Noise-cancelling headphones")
    (Some "Commuters") (Some "Noise cancellation")
    (Some "Isolate yourself from the world") (Some "30 seconds") (Some "Calm")
    (Some "Product launch") (Some "International") None None.

(** A request that gives nothing but the scene count. *)
Definition request_count_only : AdStoryboardRequest.t :=
  AdStoryboardRequest.mk None None None None None None None None None (Some 3) None.

(** A decoder that knows one text: an image prompt without its two style
    fields. *)
Definition prompt_without_style : gmap string json :=
  list_to_map
    [ ("scene_number", JInt 1);
      ("characters", JList []);
      ("action", JStr "Puts the headphones on");
      ("environment_location", JStr "Train carriage");
      ("environment_lighting", JStr "Cold morning light");
      ("environment_details", JStr "Blurred passengers");
      ("style_technique", JStr "Shallow depth of field") ].

Definition parse_json (t : string) : option json :=
  if String.eqb t "no style" then Some (JDict prompt_without_style) else None.

(** The same object with a style type and a style reference of the model's
    own, and a decoder that knows the text of each of the two objects. *)
Definition prompt_with_style : gmap string json :=
  <["style_type" := JStr "Watercolor"]>
    (<["style_reference" := JStr "Claude Monet"]> prompt_without_style).

Definition parse_json_styles (t : string) : option json :=
  if String.eqb t "no style" then Some (JDict prompt_without_style)
  else if String.eqb t "own style" then Some (JDict prompt_with_style)
  else None.

(** The same object with one character, and a decoder that knows its text. *)
Definition character_json : json :=
  JDict (list_to_map
    [ ("name", JStr "Maya");
      ("appearance", JStr "Woman in her thirties");
      ("clothing", JStr "Grey coat");
      ("expression", JStr "Relieved") ]).

Definition prompt_with_character : gmap string json :=
  <["characters" := JList [character_json]]> prompt_without_style.

Definition parse_json_character (t : string) : option json :=
  if String.eqb t "one character" then Some (JDict prompt_with_character) else None.

End Scripted.

(** ** Strings *)

Lemma append_cons (x : ascii) (a b : string) :
  String x a +:+ b = String x (a +:+ b).
Proof. reflexivity. Qed.

Lemma append_empty_l (a : string) : "" +:+ a = a.
Proof. reflexivity. Qed.

Lemma append_assoc_str (a b c : string) : (a +:+ b) +:+ c = a +:+ b +:+ c.
Proof.
  induction a as [|x a IH]; [done |]. by rewrite !append_cons, IH.
Qed.

Lemma append_empty_r (a : string) : a +:+ "" = a.
Proof.
  induction a as [|x a IH]; [done |]. by rewrite append_cons, IH.
Qed.

Lemma starts_with_split (sub s : string) :
  starts_with sub s = true → ∃ after, s = sub +:+ after.
Proof.
  revert s. induction sub as [|a sub IH]; intros s H.
  - by exists s.
  - destruct s as [|b s]; simpl in H; [done |].
    apply andb_true_iff in H as [Hab Hs].
    apply Ascii.eqb_eq in Hab as ->.
    destruct (IH _ Hs) as [after ->]. by exists after.
Qed.

Lemma starts_with_append (sub after : string) :
  starts_with sub (sub +:+ after) = true.
Proof.
  induction sub as [|a sub IH]; [done |].
  rewrite append_cons. simpl. by rewrite Ascii.eqb_refl, IH.
Qed.

Lemma ends_with_split (suffix s : string) :
  ends_with suffix s = true → ∃ before, s = before +:+ suffix.
Proof.
  induction s as [|c s IH]; simpl; intros H.
  - rewrite orb_false_r in H. apply String.eqb_eq in H as ->. by exists "".
  - apply orb_true_iff in H as [H | H].
    + apply String.eqb_eq in H as ->. by exists "".
    + destruct (IH H) as [before ->]. by exists (String c before).
Qed.

Lemma occurs_in_refl (s : string) : occurs_in s s.
Proof. exists "", "". by rewrite append_empty_l, append_empty_r. Qed.

Lemma occurs_in_app_r (sub u s : string) :
  occurs_in sub s → occurs_in sub (u +:+ s).
Proof.
  intros (before & after & ->). exists (u +:+ before), after.
  by rewrite append_assoc_str.
Qed.

Lemma occurs_in_app_l (sub s u : string) :
  occurs_in sub s → occurs_in sub (s +:+ u).
Proof.
  intros (before & after & ->). exists before, (after +:+ u).
  by rewrite !append_assoc_str.
Qed.

Lemma occurs_in_trans (a b c : string) :
  occurs_in a b → occurs_in b c → occurs_in a c.
Proof.
  intros (p & q & ->) (p' & q' & ->). exists (p' +:+ p), (q +:+ q').
  by rewrite !append_assoc_str.
Qed.

(** A value between the end of one literal piece and the start of the
    next. *)
Lemma occurs_in_between (label tail a v b : string) :
  ends_with label a = true → starts_with tail b = true →
  occurs_in (label +:+ v +:+ tail) (a +:+ v +:+ b).
Proof.
  intros [before ->]%ends_with_split [after ->]%starts_with_split.
  exists before, after. by rewrite !append_assoc_str.
Qed.

Lemma occurs_in_between_more (label tail a v b rest : string) :
  ends_with label a = true → starts_with tail b = true →
  occurs_in (label +:+ v +:+ tail) (a +:+ v +:+ b +:+ rest).
Proof.
  intros Ha Hb. rewrite <- (append_assoc_str v b rest), <- (append_assoc_str a).
  apply occurs_in_app_l. by apply occurs_in_between.
Qed.

Lemma str_in_occurs (sub s : string) : str_in sub s = true ↔ occurs_in sub s.
Proof.
  split.
  - induction s as [|c s IH]; simpl; intros H.
    + rewrite orb_false_r in H. destruct sub; [|done]. by exists "", "".
    + apply orb_true_iff in H as [H | H].
      * apply (starts_with_split sub (String c s)) in H as [after ->].
        by exists "", after.
      * destruct (IH H) as (before & after & ->). by exists (String c before), after.
  - intros (before & after & ->).
    induction before as [|c before IH].
    + rewrite append_empty_l.
      pose proof (starts_with_append sub after) as H.
      destruct (sub +:+ after); simpl; by rewrite H.
    + rewrite append_cons. simpl. rewrite IH. apply orb_true_r.
Qed.

(** ** The state-and-exception monad *)

Section Loops.
Context {World A B : Type}.
Implicit Types (f : A → state World → result B * state World).

(** A loop that returns has run its body on every element, in order, and
    each run of the body returned. *)
Lemma for_each_Ok f (xs : list A) (out : list B) (σ σ' : state World) (l : list B) :
  for_each f xs out σ = (Ok l, σ') →
  ∃ ys, l = out ++ ys ∧ Forall2 (λ x y, ∃ σ1 σ2, f x σ1 = (Ok y, σ2)) xs ys.
Proof.
  revert out σ. induction xs as [|x xs IH]; intros out σ H.
  - injection H as <- _. exists []. by rewrite app_nil_r.
  - cbn in H. unfold bind in H. destruct (f x σ) as [[y|e] σ1] eqn:Hx; [|done].
    destruct (IH _ _ H) as (ys & -> & Hys).
    exists (y :: ys). split; [by rewrite <- app_assoc |].
    constructor; eauto.
Qed.

(** The loop reads its list only through the elements it visits. *)
Lemma for_each_ext f g (xs : list A) (out : list B) (σ : state World) :
  (∀ x σ1, x ∈ xs → f x σ1 = g x σ1) →
  for_each f xs out σ = for_each g xs out σ.
Proof.
  revert out σ. induction xs as [|x xs IH]; intros out σ H; [done |].
  cbn. unfold bind. rewrite (H x σ (list_elem_of_here _ _)).
  destruct (g x σ) as [[y|e] σ1]; [|done].
  apply IH. intros x' σ2 Hx'. apply H. by apply list_elem_of_further.
Qed.

(** What a loop does, whatever its body does: it returns exactly when the
    calls on all the elements, threaded through the states, return, and then
    it returns their results; it raises exactly when, the calls on the
    elements before it having returned, the call on some element raises, and
    then it ends with the exception and in the state of that call. *)
Lemma for_each_run f (xs : list A) (out : list B) (σ : state World) :
  match for_each f xs out σ with
  | (Ok l, σ') => ∃ ys, l = out ++ ys ∧ loop_run f σ xs ys σ'
  | (Raise e, σ') =>
      ∃ pre x post ys σ1,
        xs = pre ++ x :: post ∧ loop_run f σ pre ys σ1 ∧ f x σ1 = (Raise e, σ')
  end.
Proof.
  revert out σ. induction xs as [|x xs IH]; intros out σ.
  - cbn. exists []. split; [by rewrite app_nil_r | constructor].
  - cbn [for_each]. unfold bind. destruct (f x σ) as [[y|e] σ1] eqn:Hx.
    + specialize (IH (out ++ [y]) σ1).
      destruct (for_each f xs (out ++ [y]) σ1) as [[l|e] σ'].
      * destruct IH as (ys & -> & Hrun). exists (y :: ys).
        split; [by rewrite <- app_assoc | by econstructor].
      * destruct IH as (pre & x' & post & ys & σ2 & -> & Hrun & Hraise).
        exists (x :: pre), x', post, (y :: ys), σ2.
        split; [done |]. split; [by econstructor | done].
    + exists [], x, xs, [], σ. split; [done |]. split; [constructor | done].
Qed.

(** The same with the raising call named by its index in the list. *)
Lemma for_each_run_at f (xs : list A) (σ : state World) :
  match for_each f xs [] σ with
  | (Ok ys, σ') => loop_run f σ xs ys σ'
  | (Raise e, σ') =>
      ∃ k x ys σ1,
        xs !! k = Some x ∧ loop_run f σ (take k xs) ys σ1 ∧
        f x σ1 = (Raise e, σ')
  end.
Proof.
  pose proof (for_each_run f xs [] σ) as Hrun.
  destruct (for_each f xs [] σ) as [[l|e] σ'].
  - by destruct Hrun as (ys & -> & Hrun).
  - destruct Hrun as (pre & x & post & ys & σ1 & -> & Hrun & Hx).
    exists (length pre), x, ys, σ1.
    by rewrite list_lookup_middle, take_app_length.
Qed.

(** Conversely, when the calls return one after the other, the loop returns
    their results. *)
Lemma loop_run_for_each f (σ σ' : state World) (xs : list A) (ys out : list B) :
  loop_run f σ xs ys σ' → for_each f xs out σ = (Ok (out ++ ys), σ').
Proof.
  intros Hrun. revert out.
  induction Hrun as [σ | σ σ1 σ' x y xs ys Hx _ IH]; intros out.
  - cbn. by rewrite app_nil_r.
  - cbn [for_each]. unfold bind. rewrite Hx, IH. by rewrite <- app_assoc.
Qed.

End Loops.

Lemma take_range (lo hi : Z) (k : nat) :
  (k ≤ Z.to_nat (hi - lo))%nat → take k (range lo hi) = range lo (lo + Z.of_nat k).
Proof.
  intros Hk. unfold range, seqZ. rewrite <- fmap_take, take_seq.
  do 2 f_equal. lia.
Qed.

Section TwoAttempts.
Context {World Response T : Type}.
Variable generate_content : string → World → result Response * World.
Variable text : Response → result string.
Variable parser : PydanticOutputParser T.
Variable fix_record : T → T.
Variables prompt retry_prompt : string.

(** One call sends the prompt, and after it at most the retry prompt. *)
Lemma two_attempts_calls (σ : state World) :
  let σ' := (two_attempts generate_content text parser fix_record prompt retry_prompt σ).2 in
  calls σ' = calls σ ++ [prompt] ∨ calls σ' = calls σ ++ [prompt; retry_prompt].
Proof.
  unfold two_attempts.
  destruct (generate_content prompt _) as [[r1|e1] w1]; [|by left].
  destruct (parse_response _ _ r1); [by left |].
  destruct (generate_content retry_prompt _) as [[r2|e2] w2]; [|by right].
  destruct (parse_response _ _ r2); by right.
Qed.

(** Whatever a call returns went through [fix_record]. *)
Lemma two_attempts_Ok (σ σ' : state World) (v : T) :
  two_attempts generate_content text parser fix_record prompt retry_prompt σ = (Ok v, σ') →
  ∃ record, v = fix_record record.
Proof.
  unfold two_attempts.
  destruct (generate_content prompt _) as [[r1|e1] w1]; [|done].
  destruct (parse_response _ _ r1) as [v1|]; [intros [= <- _]; by exists v1 |].
  destruct (generate_content retry_prompt _) as [[r2|e2] w2]; [|done].
  destruct (parse_response _ _ r2) as [v2|]; [intros [= <- _]; by exists v2 | done].
Qed.

End TwoAttempts.

(** The result of a call depends on the model only through the answers to
    its two prompts. *)
Lemma two_attempts_result {World1 World2 Response T : Type}
    (generate1 : string → World1 → result Response * World1)
    (generate2 : string → World2 → result Response * World2)
    (text : Response → result string) (parser : PydanticOutputParser T)
    (fix_record : T → T) (prompt retry_prompt : string)
    (σ1 : state World1) (σ2 : state World2) :
  (∀ p, p ∈ [prompt; retry_prompt] → ∀ w1 w2, (generate1 p w1).1 = (generate2 p w2).1) →
  (two_attempts generate1 text parser fix_record prompt retry_prompt σ1).1 =
  (two_attempts generate2 text parser fix_record prompt retry_prompt σ2).1.
Proof.
  intros H. unfold two_attempts.
  pose proof (H prompt ltac:(set_solver) (world σ1) (world σ2)) as H1.
  destruct (generate1 prompt _) as [r1 w1], (generate2 prompt _) as [r1' w1'].
  simpl in H1. subst r1'. destruct r1 as [r1|e1]; [|done].
  destruct (parse_response _ _ r1); [done |].
  pose proof (H retry_prompt ltac:(set_solver) w1 w1') as H2.
  destruct (generate1 retry_prompt _) as [r2 w2], (generate2 retry_prompt _) as [r2' w2'].
  simpl in H2. subst r2'. destruct r2 as [r2|e2]; [|done].
  by destruct (parse_response _ _ r2).
Qed.

Section CallSites.
Context {World Response : Type}.
Variable generate_content : string → World → result Response * World.
Variable text : Response → result string.

Lemma generate_ad_details_two_attempts (parser : PydanticOutputParser AdDetails.t)
    (request : AdStoryboardRequest.t) (σ : state World) :
  let prompt := ad_details_prompt (get_format_instructions parser) request in
  generate_ad_details generate_content text parser request σ =
  two_attempts generate_content text parser id prompt
    (ad_details_retry_prompt prompt request) σ.
Proof.
  unfold generate_ad_details, two_attempts, bind, try_except, lift,
    model_generate_content.
  destruct (generate_content _ _) as [[r1|e1] w1]; [|done].
  destruct (parse_response _ _ r1); [done |]. cbn [world calls].
  rewrite <- app_assoc.
  destruct (generate_content _ _) as [[r2|e2] w2]; [|done].
  by destruct (parse_response _ _ r2).
Qed.

Lemma generate_single_scene_two_attempts (parser : PydanticOutputParser SceneOutput.t)
    (scene_number : Z) (input_scene : Scene.t) (ad_details : AdDetails.t)
    (σ : state World) :
  let prompt :=
    scene_prompt (get_format_instructions parser) scene_number input_scene ad_details in
  _generate_single_scene generate_content text parser scene_number input_scene ad_details σ =
  two_attempts generate_content text parser id prompt
    (scene_retry_prompt prompt scene_number) σ.
Proof.
  unfold _generate_single_scene, two_attempts, bind, try_except, lift,
    model_generate_content.
  destruct (generate_content _ _) as [[r1|e1] w1]; [|done].
  destruct (parse_response _ _ r1); [done |]. cbn [world calls].
  rewrite <- app_assoc.
  destruct (generate_content _ _) as [[r2|e2] w2]; [|done].
  by destruct (parse_response _ _ r2).
Qed.

Lemma generate_single_txt2img_two_attempts
    (parser : PydanticOutputParser TextToImagePrompt.t) (scene : SceneOutput.t)
    (σ : state World) :
  let prompt := txt2img_prompt (get_format_instructions parser) scene in
  _generate_single_txt2img_prompt generate_content text parser scene σ =
  two_attempts generate_content text parser
    (TextToImagePrompt.set_scene_number (SceneOutput.scene_number scene))
    prompt (txt2img_retry_prompt prompt scene) σ.
Proof.
  unfold _generate_single_txt2img_prompt, two_attempts, bind, try_except, lift,
    model_generate_content, ret.
  destruct (generate_content _ _) as [[r1|e1] w1]; [|done].
  destruct (parse_response _ _ r1); [done |]. cbn [world calls].
  rewrite <- app_assoc.
  destruct (generate_content _ _) as [[r2|e2] w2]; [|done].
  by destruct (parse_response _ _ r2).
Qed.

Lemma generate_single_img2vid_two_attempts
    (parser : PydanticOutputParser ImageToVideoPrompt.t) (scene : SceneOutput.t)
    (txt2img : TextToImagePrompt.t) (σ : state World) :
  let prompt := img2vid_prompt (get_format_instructions parser) scene txt2img in
  _generate_single_img2vid_prompt generate_content text parser scene txt2img σ =
  two_attempts generate_content text parser
    (ImageToVideoPrompt.set_scene_number (SceneOutput.scene_number scene))
    prompt (img2vid_retry_prompt prompt scene) σ.
Proof.
  unfold _generate_single_img2vid_prompt, two_attempts, bind, try_except, lift,
    model_generate_content, ret.
  destruct (generate_content _ _) as [[r1|e1] w1]; [|done].
  destruct (parse_response _ _ r1); [done |]. cbn [world calls].
  rewrite <- app_assoc.
  destruct (generate_content _ _) as [[r2|e2] w2]; [|done].
  by destruct (parse_response _ _ r2).
Qed.

End CallSites.

(** ** The structured-generation call sites *)

Section Contract.
Context {World Response : Type}.
Variable generate_content : string → World → result Response * World.
Variable text : Response → result string.

Lemma two_attempts_contract {T : Type} (parser : PydanticOutputParser T)
    (fix_record : T → T) (prompt retry_prompt : string)
    (call : state World → result T * state World) :
  (∀ σ, call σ =
        two_attempts generate_content text parser fix_record prompt retry_prompt σ) →
  at_most_two_attempts generate_content text parser fix_record prompt retry_prompt call.
Proof.
  intros Hcall σ response w1 H1. rewrite Hcall. unfold two_attempts. rewrite H1.
  destruct (parse_response text parser response); [done |].
  intros retry_response w2 H2. rewrite H2.
  by destruct (parse_response text parser retry_response).
Qed.

(** C3. Each of the four structured-generation call sites
    ([generate_ad_details], [_generate_single_scene],
    [_generate_single_txt2img_prompt], [_generate_single_img2vid_prompt])
    makes exactly one completion when the first parse succeeds; when the
    first parse fails and the retry parses it makes exactly two and returns
    the second record; when both parses fail it raises the exception of the
    second parse after two completions: no third completion, no fallback
    value.  The state after the call lists the prompts sent. *)
Theorem structured_generation_at_most_two_attempts
    (output_parser : PydanticOutputParser AdDetails.t)
    (scene_output_parser : PydanticOutputParser SceneOutput.t)
    (txt2img_output_parser : PydanticOutputParser TextToImagePrompt.t)
    (img2vid_output_parser : PydanticOutputParser ImageToVideoPrompt.t) :
  (∀ request,
     let prompt := ad_details_prompt (get_format_instructions output_parser) request in
     at_most_two_attempts generate_content text output_parser id
       prompt (ad_details_retry_prompt prompt request)
       (generate_ad_details generate_content text output_parser request)) ∧
  (∀ scene_number input_scene ad_details,
     let prompt := scene_prompt (get_format_instructions scene_output_parser)
                     scene_number input_scene ad_details in
     at_most_two_attempts generate_content text scene_output_parser id
       prompt (scene_retry_prompt prompt scene_number)
       (_generate_single_scene generate_content text scene_output_parser
          scene_number input_scene ad_details)) ∧
  (∀ scene,
     let prompt := txt2img_prompt (get_format_instructions txt2img_output_parser) scene in
     at_most_two_attempts generate_content text txt2img_output_parser
       (TextToImagePrompt.set_scene_number (SceneOutput.scene_number scene))
       prompt (txt2img_retry_prompt prompt scene)
       (_generate_single_txt2img_prompt generate_content text txt2img_output_parser scene)) ∧
  (∀ scene txt2img,
     let prompt := img2vid_prompt (get_format_instructions img2vid_output_parser)
                     scene txt2img in
     at_most_two_attempts generate_content text img2vid_output_parser
       (ImageToVideoPrompt.set_scene_number (SceneOutput.scene_number scene))
       prompt (img2vid_retry_prompt prompt scene)
       (_generate_single_img2vid_prompt generate_content text img2vid_output_parser
          scene txt2img)).
Proof.
  repeat split; intros; apply two_attempts_contract; intros σ.
  - apply generate_ad_details_two_attempts.
  - apply generate_single_scene_two_attempts.
  - apply generate_single_txt2img_two_attempts.
  - apply generate_single_img2vid_two_attempts.
Qed.

End Contract.

(** On a model that first answers a text that does not parse and then one
    that does, the scene call returns the second record after exactly two
    completions. *)
Lemma structured_generation_retry_run :
  let σ := State ["garbage"; "scene"] [] in
  let prompt := scene_prompt "FORMAT" 1 Scene.new Scripted.ad_details in
  _generate_single_scene Scripted.generate_content Scripted.text
    Scripted.scene_output_parser 1 Scene.new Scripted.ad_details σ =
  (Ok Scripted.scene_seven, State [] [prompt; scene_retry_prompt prompt 1]).
Proof.
  intros σ prompt.
  pose proof (structured_generation_at_most_two_attempts
                Scripted.generate_content Scripted.text Scripted.output_parser
                Scripted.scene_output_parser Scripted.txt2img_output_parser
                Scripted.img2vid_output_parser) as (_ & H & _).
  exact (H 1 Scene.new Scripted.ad_details σ "garbage" ["scene"] eq_refl
           "scene" [] eq_refl).
Defined.

(** C1 (the code at the failing input). One scene is asked for and the
    model answers a scene numbered 7: [generate_scenes] returns that scene
    with the number 7, not with the loop index 1. *)
Theorem generate_scenes_keeps_parsed_scene_number :
  AdDetails.number_of_scenes Scripted.ad_details = 1 ∧
  ∃ scene σ',
    generate_scenes Scripted.generate_content Scripted.text
      Scripted.scene_output_parser Scripted.ad_details None (State ["scene"] []) =
    (Ok [scene], σ') ∧
    SceneOutput.scene_number scene = 7.
Proof.
  split; [reflexivity |].
  eexists _, _. split; [vm_compute; reflexivity | reflexivity].
Qed.

(** The probe [getattr(scene, "user_recommendation", None)] finds nothing on
    a scene output, so the precedence block of the two derived prompts is
    empty on every scene. *)
Lemma derived_priority_instructions_empty (scene : SceneOutput.t) :
  txt2img_priority_instructions scene = "" ∧
  img2vid_priority_instructions scene = "".
Proof. split; reflexivity. Qed.

(** The scene call returns the record of the parser as it is. *)
Lemma generate_single_scene_returns_parsed {World Response : Type}
    (generate_content : string → World → result Response * World)
    (text : Response → result string)
    (scene_output_parser : PydanticOutputParser SceneOutput.t)
    (i : Z) (input_scene : Scene.t) (ad_details : AdDetails.t)
    (σ σ' : state World) (scene : SceneOutput.t) :
  _generate_single_scene generate_content text scene_output_parser i input_scene
    ad_details σ = (Ok scene, σ') →
  ∃ response, parse_response text scene_output_parser response = Ok scene.
Proof.
  rewrite generate_single_scene_two_attempts. unfold two_attempts.
  destruct (generate_content _ _) as [[r1|e1] w1]; [|done].
  destruct (parse_response _ _ r1) as [v1|] eqn:E1; [intros [= <- _]; by exists r1 |].
  destruct (generate_content _ _) as [[r2|e2] w2]; [|done].
  destruct (parse_response _ _ r2) as [v2|] eqn:E2; [intros [= <- _]; by exists r2 | done].
Qed.

(** C2 (the code at the failing input). A request whose only scene carries
    the override [character waves at camera in slow motion] runs through the
    whole pipeline: of the four prompts sent, the scene prompt contains the
    override, the text-to-image and the image-to-video prompts do not. *)
Theorem derived_prompts_drop_override :
  let run :=
    generate Scripted.generate_content Scripted.text Scripted.output_parser
      Scripted.scene_output_parser Scripted.txt2img_output_parser
      Scripted.img2vid_output_parser Scripted.request
      (State ["details"; "scene"; "image"; "video"] []) in
  (∃ storyboard, run.1 = Ok storyboard) ∧
  str_in Scripted.override <$> calls run.2 = [false; true; false; false].
Proof.
  split; [eexists; vm_compute; reflexivity | vm_compute; reflexivity].
Qed.

(** ** The instruction bodies *)

(** Finds a value between two literal pieces of a text built by
    concatenation, checking the ends of the pieces by evaluation. *)
Ltac find_between :=
  repeat first
    [ solve [ apply occurs_in_between_more; vm_compute; reflexivity ]
    | solve [ apply occurs_in_between; vm_compute; reflexivity ]
    | solve [ apply occurs_in_app_l; apply occurs_in_between; vm_compute; reflexivity ]
    | apply occurs_in_app_r ].

Lemma str_or_absent (x : option string) (sentinel : string) :
  x = None ∨ x = Some "" → str_or x sentinel = sentinel.
Proof. by intros [-> | ->]. Qed.

Lemma str_or_present (x : option string) (s sentinel : string) :
  x = Some s → s ≠ "" → str_or x sentinel = s.
Proof.
  intros -> Hs. unfold str_or.
  destruct (String.eqb s "") eqn:E; [|done]. by apply String.eqb_eq in E.
Qed.

(** Each of the nine text fields has its line, holding [value or "Not
    specified"]. *)
Lemma ad_details_prompt_text_field (format_instructions : string)
    (request : AdStoryboardRequest.t) (label : string)
    (get : AdStoryboardRequest.t → option string) :
  (label, get) ∈ request_text_fields →
  occurs_in (request_line label (str_or (get request) "Not specified"))
    (ad_details_prompt format_instructions request).
Proof.
  unfold request_text_fields. rewrite !elem_of_cons, elem_of_nil.
  intros H. unfold ad_details_prompt, request_line.
  repeat (destruct H as [[= -> ->] | H];
    [ match goal with
      | |- occurs_in (?d +:+ ?l +:+ ?c +:+ ?v +:+ ?n) _ =>
          change (d +:+ l +:+ c +:+ v +:+ n) with ((d +:+ l +:+ c) +:+ v +:+ n)
      end; find_between | ]).
  done.
Qed.

Lemma ad_details_prompt_number_of_scenes (format_instructions : string)
    (request : AdStoryboardRequest.t) :
  occurs_in
    (request_line "Number of Scenes"
       (format_optional_int (AdStoryboardRequest.number_of_scenes request)))
    (ad_details_prompt format_instructions request).
Proof.
  unfold ad_details_prompt, request_line.
  match goal with
  | |- occurs_in (?d +:+ ?l +:+ ?c +:+ ?v +:+ ?n) _ =>
      change (d +:+ l +:+ c +:+ v +:+ n) with ((d +:+ l +:+ c) +:+ v +:+ n)
  end.
  find_between.
Qed.

(** C5 (as amended). The instruction body of the Ad Details stage has a line
    for each of the nine text fields of the request, holding the value of
    the field, or the sentinel [Not specified] when the value is absent or
    empty; it has a line holding the scene count when the count is present;
    and it does not depend on the scene list of the request. *)
Theorem ad_details_prompt_enumerates_text_fields (format_instructions : string)
    (request : AdStoryboardRequest.t) :
  (∀ label get, (label, get) ∈ request_text_fields →
     (get request = None ∨ get request = Some "" →
      str_in (request_line label "Not specified")
        (ad_details_prompt format_instructions request) = true) ∧
     (∀ s, get request = Some s → s ≠ "" →
      str_in (request_line label s)
        (ad_details_prompt format_instructions request) = true)) ∧
  (∀ n, AdStoryboardRequest.number_of_scenes request = Some n →
     str_in (request_line "Number of Scenes" (format_int n))
       (ad_details_prompt format_instructions request) = true) ∧
  (∀ scenes,
     ad_details_prompt format_instructions (with_scenes scenes request) =
     ad_details_prompt format_instructions request).
Proof.
  split; [|split].
  - intros label get Hin.
    pose proof (ad_details_prompt_text_field format_instructions request _ _ Hin) as H.
    split.
    + intros Habsent. apply str_in_occurs. by rewrite str_or_absent in H.
    + intros s Hs Hne. apply str_in_occurs.
      by rewrite (str_or_present _ s) in H.
  - intros n Hn. apply str_in_occurs.
    pose proof (ad_details_prompt_number_of_scenes format_instructions request) as H.
    by rewrite Hn in H.
  - done.
Qed.

(** A request that gives only a scene count of 3: the body has the sentinel
    on the line of the tone and the count on its own line. *)
Lemma ad_details_prompt_count_only_run :
  str_in (request_line "Tone" "Not specified")
    (ad_details_prompt "FORMAT" Scripted.request_count_only) = true ∧
  str_in (request_line "Number of Scenes" (format_int 3))
    (ad_details_prompt "FORMAT" Scripted.request_count_only) = true.
Proof.
  destruct (ad_details_prompt_enumerates_text_fields "FORMAT"
              Scripted.request_count_only) as (Htext & Hcount & _).
  split.
  - destruct (Htext "Tone" AdStoryboardRequest.tone) as [Habsent _].
    + unfold request_text_fields. rewrite !elem_of_cons. tauto.
    + apply Habsent. left. reflexivity.
  - apply Hcount. reflexivity.
Defined.

(** C5 (counterexample). A request that gives its nine text fields and
    neither a scene count nor a scene list: the two are absent, and the
    sentinel [Not specified] occurs nowhere in the instruction body. *)
Lemma ad_details_prompt_no_sentinel_for_scene_count :
  AdStoryboardRequest.number_of_scenes Scripted.request_without_count = None ∧
  AdStoryboardRequest.scenes Scripted.request_without_count = None ∧
  str_in "Not specified"
    (ad_details_prompt "FORMAT" Scripted.request_without_count) = false.
Proof. repeat split; vm_compute; reflexivity. Qed.

Lemma scene_prompt_critical_section (format_instructions : string) (i : Z)
    (input_scene : Scene.t) (ad_details : AdDetails.t) (r : string) :
  Scene.user_recommendation input_scene = Some r → r ≠ "" →
  occurs_in (critical_section r)
    (scene_prompt format_instructions i input_scene ad_details).
Proof.
  intros Hr Hne.
  unfold scene_prompt, scene_priority_instructions, critical_section.
  rewrite Hr. cbn [str_truthy format_optional_str].
  destruct (String.eqb r "") eqn:E; [by apply String.eqb_eq in E |].
  cbn [negb].
  match goal with
  | |- occurs_in (?h +:+ ?n +:+ ?s +:+ r +:+ ?t) _ =>
      change (h +:+ n +:+ s +:+ r +:+ t) with ((h +:+ n +:+ s) +:+ r +:+ t)
  end.
  find_between.
Qed.

(** The retry prompt of the scene call repeats the prompt. *)
Lemma scene_retry_prompt_repeats (prompt : string) (i : Z) :
  occurs_in prompt (scene_retry_prompt prompt i).
Proof.
  unfold scene_retry_prompt.
  apply occurs_in_app_r, occurs_in_app_l, occurs_in_refl.
Qed.

(** C6. When the scene input of a call carries a non-empty override, the
    scene call sends the model the prompt it composed, and after it at most
    the retry prompt; each prompt sent contains the critical
    must-include-verbatim section with the override text unchanged in it. *)
Theorem scene_prompt_carries_override_verbatim {World Response : Type}
    (generate_content : string → World → result Response * World)
    (text : Response → result string)
    (scene_output_parser : PydanticOutputParser SceneOutput.t)
    (i : Z) (input_scene : Scene.t) (ad_details : AdDetails.t) (r : string)
    (σ : state World) :
  Scene.user_recommendation input_scene = Some r → r ≠ "" →
  ∃ retries,
    calls (_generate_single_scene generate_content text scene_output_parser
             i input_scene ad_details σ).2 =
    calls σ ++
      scene_prompt (get_format_instructions scene_output_parser) i input_scene ad_details
      :: retries ∧
    ∀ p, p ∈ scene_prompt (get_format_instructions scene_output_parser) i
               input_scene ad_details :: retries →
         str_in (critical_section r) p = true.
Proof.
  intros Hr Hne.
  pose proof (scene_prompt_critical_section
                (get_format_instructions scene_output_parser) i input_scene
                ad_details r Hr Hne) as Hprompt.
  rewrite generate_single_scene_two_attempts. cbv zeta.
  match goal with
  | |- context [two_attempts ?g ?t ?ps ?f ?p ?rp σ] =>
      destruct (two_attempts_calls g t ps f p rp σ) as [-> | ->]
  end.
  - exists []. split; [done |].
    intros p ->%list_elem_of_singleton. by apply str_in_occurs.
  - eexists [_]. split; [done |].
    intros p [-> | ->%list_elem_of_singleton]%elem_of_cons; apply str_in_occurs;
      [done |].
    eapply occurs_in_trans; [exact Hprompt | apply scene_retry_prompt_repeats].
Qed.

(** The scene input of the request of the override scenario, sent through
    the scripted model. *)
Lemma scene_prompt_override_run :
  ∃ retries,
    calls (_generate_single_scene Scripted.generate_content Scripted.text
             Scripted.scene_output_parser 1 Scripted.scene_with_override
             Scripted.ad_details (State ["scene"] [])).2 =
    [] ++ scene_prompt "FORMAT" 1 Scripted.scene_with_override Scripted.ad_details
       :: retries ∧
    ∀ p, p ∈ scene_prompt "FORMAT" 1 Scripted.scene_with_override
               Scripted.ad_details :: retries →
         str_in (critical_section Scripted.override) p = true.
Proof.
  apply (scene_prompt_carries_override_verbatim Scripted.generate_content
           Scripted.text Scripted.scene_output_parser 1
           Scripted.scene_with_override Scripted.ad_details Scripted.override
           (State ["scene"] [])).
  - reflexivity.
  - vm_compute. discriminate.
Defined.

(** ** The loops over the scenes *)

Section Scenes.
Context {World Response : Type}.
Variable generate_content : string → World → result Response * World.
Variable text : Response → result string.
Variable scene_output_parser : PydanticOutputParser SceneOutput.t.

(** The guarded index of [generate_scenes] never raises. *)
Lemma select_input_scene (input_scenes : list Scene.t) (i : Z) (σ : state World) :
  1 ≤ i →
  (if i <=? Z.of_nat (length input_scenes)
   then lift (list_getitem input_scenes (i - 1))
   else ret Scene.new) σ =
  (Ok (default Scene.new (input_scenes !! Z.to_nat (i - 1))), σ).
Proof.
  intros Hi. destruct (Z.leb_spec i (Z.of_nat (length input_scenes))) as [Hle | Hgt].
  - unfold lift, list_getitem.
    destruct (Z.ltb_spec (i - 1) 0) as [|_]; [lia |].
    destruct (Z.leb_spec 0 (i - 1)) as [_|]; [|lia].
    destruct (Z.ltb_spec (i - 1) (Z.of_nat (length input_scenes))) as [_|]; [|lia].
    cbn [andb].
    destruct (lookup_lt_is_Some_2 input_scenes (Z.to_nat (i - 1))) as [x ->]; [lia |].
    done.
  - rewrite lookup_ge_None_2 by lia. done.
Qed.

(** [generate_scenes] is the loop of the scene calls over [1..N], each on
    its supplied scene. *)
Lemma generate_scenes_loop (ad_details : AdDetails.t)
    (input_scenes : option (list Scene.t)) (σ : state World) :
  generate_scenes generate_content text scene_output_parser ad_details input_scenes σ =
  for_each
    (λ i, _generate_single_scene generate_content text scene_output_parser i
            (supplied_scene input_scenes i) ad_details)
    (range 1 (AdDetails.number_of_scenes ad_details + 1)) [] σ.
Proof.
  unfold generate_scenes. apply for_each_ext.
  intros i σ1 [Hi _]%elem_of_seqZ. unfold bind.
  rewrite select_input_scene by done.
  by destruct input_scenes as [[|scene rest]|].
Qed.

(** When [generate_scenes] returns, it returns one scene per index of
    [1..N], and the scene at index [i] is what the call for [i] on its
    supplied scene returned. *)
Lemma generate_scenes_Ok (ad_details : AdDetails.t)
    (input_scenes : option (list Scene.t)) (σ σ' : state World)
    (scenes : list SceneOutput.t) :
  generate_scenes generate_content text scene_output_parser ad_details input_scenes σ =
    (Ok scenes, σ') →
  length scenes = Z.to_nat (AdDetails.number_of_scenes ad_details) ∧
  ∀ i, 1 ≤ i ≤ AdDetails.number_of_scenes ad_details →
    ∃ scene σ1 σ2,
      scenes !! Z.to_nat (i - 1) = Some scene ∧
      _generate_single_scene generate_content text scene_output_parser i
        (supplied_scene input_scenes i) ad_details σ1 = (Ok scene, σ2).
Proof.
  rewrite generate_scenes_loop. intros (ys & -> & Hys)%for_each_Ok.
  rewrite app_nil_l. split.
  - rewrite <- (Forall2_length _ _ _ Hys). unfold range. rewrite length_seqZ. lia.
  - intros i Hi.
    destruct (Forall2_lookup_l _ _ _ (Z.to_nat (i - 1)) i Hys)
      as (scene & Hscene & σ1 & σ2 & Hcall).
    { unfold range. rewrite lookup_seqZ. lia. }
    by exists scene, σ1, σ2.
Qed.

(** C4. With a scene count [N ≥ 1] and any list of scene inputs (none, empty
    or shorter than [N] included), [generate_scenes] runs the scene calls for
    [1, 2, ..., N] one after the other, the call for [i] on the [i]-th
    supplied scene input when there is one and on the empty scene otherwise.
    When these [N] calls return, it returns their results; whenever it
    returns, it returns exactly [N] scene outputs, the one at index [i] being
    what the call for [i] returned; and it returns no shorter list: when it
    raises, the calls for the scenes before some [k ≤ N] have returned and
    the call for [k] has raised that exception. *)
Theorem generate_scenes_count_is_authoritative (ad_details : AdDetails.t)
    (input_scenes : option (list Scene.t)) (σ : state World) :
  let N := AdDetails.number_of_scenes ad_details in
  let call := λ i,
    _generate_single_scene generate_content text scene_output_parser i
      (supplied_scene input_scenes i) ad_details in
  1 ≤ N →
  (∀ scenes σ',
     loop_run call σ (range 1 (N + 1)) scenes σ' →
     generate_scenes generate_content text scene_output_parser ad_details
       input_scenes σ = (Ok scenes, σ')) ∧
  match generate_scenes generate_content text scene_output_parser ad_details
          input_scenes σ with
  | (Ok scenes, σ') =>
      Z.of_nat (length scenes) = N ∧
      loop_run call σ (range 1 (N + 1)) scenes σ' ∧
      ∀ i, 1 ≤ i ≤ N →
        ∃ scene σ1 σ2,
          scenes !! Z.to_nat (i - 1) = Some scene ∧
          call i σ1 = (Ok scene, σ2)
  | (Raise e, σ') =>
      ∃ k earlier σ1,
        1 ≤ k ≤ N ∧
        loop_run call σ (range 1 k) earlier σ1 ∧
        call k σ1 = (Raise e, σ')
  end.
Proof.
  intros N call HN. split.
  - intros scenes σ' Hrun. rewrite generate_scenes_loop.
    exact (loop_run_for_each _ _ _ _ _ [] Hrun).
  - pose proof (for_each_run_at call (range 1 (N + 1)) σ) as Hloop.
    unfold call, N in Hloop. rewrite <- generate_scenes_loop in Hloop.
    destruct (generate_scenes generate_content text scene_output_parser
                ad_details input_scenes σ) as [[scenes|e] σ'] eqn:Hrun.
    + destruct (generate_scenes_Ok _ _ _ _ _ Hrun) as [Hlen Hat].
      split; [unfold N; lia |]. split; [done |]. exact Hat.
    + destruct Hloop as (k & x & earlier & σ1 & Hx & Hearlier & Hraise).
      unfold range in Hx. apply lookup_seqZ in Hx as [-> Hk].
      rewrite take_range in Hearlier by lia.
      exists (1 + Z.of_nat k), earlier, σ1.
      split; [unfold N; lia |]. by split.
Qed.

End Scenes.

(** C9. Two models that give the same answers to the prompt and to the retry
    prompt of scene [i], and any answers to every other prompt: when
    [generate_scenes] returns under both, the two lists hold the same scene
    output at index [i]. *)
Theorem generate_scenes_scene_independent {World1 World2 Response : Type}
    (generate1 : string → World1 → result Response * World1)
    (generate2 : string → World2 → result Response * World2)
    (text : Response → result string)
    (scene_output_parser : PydanticOutputParser SceneOutput.t)
    (ad_details : AdDetails.t) (input_scenes : option (list Scene.t)) (i : Z)
    (σ1 σ1' : state World1) (σ2 σ2' : state World2)
    (scenes1 scenes2 : list SceneOutput.t) :
  let prompt := scene_prompt (get_format_instructions scene_output_parser) i
                  (supplied_scene input_scenes i) ad_details in
  1 ≤ i ≤ AdDetails.number_of_scenes ad_details →
  (∀ p, p ∈ [prompt; scene_retry_prompt prompt i] →
     ∀ w1 w2, (generate1 p w1).1 = (generate2 p w2).1) →
  generate_scenes generate1 text scene_output_parser ad_details input_scenes σ1 =
    (Ok scenes1, σ1') →
  generate_scenes generate2 text scene_output_parser ad_details input_scenes σ2 =
    (Ok scenes2, σ2') →
  ∃ scene,
    scenes1 !! Z.to_nat (i - 1) = Some scene ∧
    scenes2 !! Z.to_nat (i - 1) = Some scene.
Proof.
  intros prompt Hi Hsame Hrun1 Hrun2.
  destruct (generate_scenes_Ok _ _ _ _ _ _ _ _ Hrun1) as [_ H1].
  destruct (generate_scenes_Ok _ _ _ _ _ _ _ _ Hrun2) as [_ H2].
  destruct (H1 i Hi) as (scene1 & τ1 & τ1' & Hat1 & Hcall1).
  destruct (H2 i Hi) as (scene2 & τ2 & τ2' & Hat2 & Hcall2).
  exists scene1. split; [done |]. rewrite Hat2. f_equal.
  pose proof (two_attempts_result generate1 generate2 text scene_output_parser
                id prompt (scene_retry_prompt prompt i) τ1 τ2 Hsame) as Hres.
  rewrite generate_single_scene_two_attempts in Hcall1.
  rewrite generate_single_scene_two_attempts in Hcall2.
  cbv zeta in Hcall1, Hcall2. fold prompt in Hcall1, Hcall2.
  rewrite Hcall1, Hcall2 in Hres. simpl in Hres. congruence.
Qed.

Section Videos.
Context {World Response : Type}.
Variable generate_content : string → World → result Response * World.
Variable text : Response → result string.
Variable img2vid_output_parser : PydanticOutputParser ImageToVideoPrompt.t.

(** Both paths of the image-to-video call force the scene number. *)
Lemma generate_single_img2vid_scene_number (scene : SceneOutput.t)
    (txt2img : TextToImagePrompt.t) (σ σ' : state World)
    (video : ImageToVideoPrompt.t) :
  _generate_single_img2vid_prompt generate_content text img2vid_output_parser
    scene txt2img σ = (Ok video, σ') →
  ImageToVideoPrompt.scene_number video = SceneOutput.scene_number scene.
Proof.
  rewrite generate_single_img2vid_two_attempts.
  by intros [record ->]%two_attempts_Ok.
Qed.

(** When [generate_image_to_video_prompts] returns, it returns one prompt
    per pair of the zipped lists, each from the call on its pair. *)
Lemma generate_image_to_video_prompts_Ok (scenes : list SceneOutput.t)
    (txt2img_prompts : list TextToImagePrompt.t) (σ σ' : state World)
    (videos : list ImageToVideoPrompt.t) :
  generate_image_to_video_prompts generate_content text img2vid_output_parser
    scenes txt2img_prompts σ = (Ok videos, σ') →
  length videos = Nat.min (length scenes) (length txt2img_prompts) ∧
  ∀ i scene txt2img,
    scenes !! i = Some scene → txt2img_prompts !! i = Some txt2img →
    ∃ video σ1 σ2,
      videos !! i = Some video ∧
      _generate_single_img2vid_prompt generate_content text img2vid_output_parser
        scene txt2img σ1 = (Ok video, σ2).
Proof.
  unfold generate_image_to_video_prompts. intros (ys & -> & Hys)%for_each_Ok.
  rewrite app_nil_l. split.
  - rewrite <- (Forall2_length _ _ _ Hys). apply length_zip_with.
  - intros i scene txt2img Hscene Htxt2img.
    destruct (Forall2_lookup_l _ _ _ i (scene, txt2img) Hys)
      as (video & Hvideo & σ1 & σ2 & Hcall).
    { by rewrite lookup_zip_with, Hscene, Htxt2img. }
    by exists video, σ1, σ2.
Qed.

(** C7. For index-aligned lists of the same length [N],
    [generate_image_to_video_prompts] runs the per-scene calls on the pairs
    in order.  When these calls return, it returns their results; whenever it
    returns, it returns [N] prompts, and the prompt at index [i] has the
    scene number of the scene output at index [i], whichever of the two
    attempts produced it; when it raises, the calls on the pairs before some
    index [k < N] have returned and the call on the pair at [k] has raised
    that exception. *)
Theorem image_to_video_prompts_keep_scene_numbers (scenes : list SceneOutput.t)
    (txt2img_prompts : list TextToImagePrompt.t) (σ : state World) :
  let call := λ '(scene, txt2img),
    _generate_single_img2vid_prompt generate_content text img2vid_output_parser
      scene txt2img in
  length scenes = length txt2img_prompts →
  (∀ videos σ',
     loop_run call σ (zip scenes txt2img_prompts) videos σ' →
     generate_image_to_video_prompts generate_content text img2vid_output_parser
       scenes txt2img_prompts σ = (Ok videos, σ')) ∧
  match generate_image_to_video_prompts generate_content text
          img2vid_output_parser scenes txt2img_prompts σ with
  | (Ok videos, σ') =>
      length videos = length scenes ∧
      loop_run call σ (zip scenes txt2img_prompts) videos σ' ∧
      ∀ i scene, scenes !! i = Some scene →
        ∃ video, videos !! i = Some video ∧
          ImageToVideoPrompt.scene_number video = SceneOutput.scene_number scene
  | (Raise e, σ') =>
      ∃ k scene txt2img earlier σ1,
        scenes !! k = Some scene ∧ txt2img_prompts !! k = Some txt2img ∧
        loop_run call σ (take k (zip scenes txt2img_prompts)) earlier σ1 ∧
        _generate_single_img2vid_prompt generate_content text
          img2vid_output_parser scene txt2img σ1 = (Raise e, σ')
  end.
Proof.
  intros call Hlen. split.
  - intros videos σ' Hrun. exact (loop_run_for_each _ _ _ _ _ [] Hrun).
  - pose proof (for_each_run_at call (zip scenes txt2img_prompts) σ) as Hloop.
    unfold call in Hloop. fold (generate_image_to_video_prompts generate_content
      text img2vid_output_parser scenes txt2img_prompts σ) in Hloop.
    destruct (generate_image_to_video_prompts generate_content text
                img2vid_output_parser scenes txt2img_prompts σ)
      as [[videos|e] σ'] eqn:Hrun.
    + destruct (generate_image_to_video_prompts_Ok _ _ _ _ _ Hrun) as [Hlength Hat].
      split; [lia |]. split; [done |].
      intros i scene Hscene.
      destruct (lookup_lt_is_Some_2 txt2img_prompts i) as [txt2img Htxt2img].
      { rewrite <- Hlen. by apply lookup_lt_is_Some_1; eexists. }
      destruct (Hat i scene txt2img Hscene Htxt2img)
        as (video & σ1 & σ2 & Hvideo & Hcall).
      exists video. split; [done |].
      by eapply generate_single_img2vid_scene_number.
    + destruct Hloop as (k & [scene txt2img] & earlier & σ1 & Hk & Hearlier & Hraise).
      apply lookup_zip_with_Some in Hk as (scene' & txt2img' & [= <- <-] & Hs & Ht).
      by exists k, scene, txt2img, earlier, σ1.
Qed.

(** C10. On lists of any two lengths, [generate_image_to_video_prompts] does
    what it does on the two lists cut to the shorter length, so the surplus
    of the longer list is never read.  When the per-scene calls on the zipped
    pairs, run in order, return, it returns their results; whenever it
    returns, it returns exactly as many prompts as the shorter list has
    elements; and no error comes from the mismatch: when it raises, the
    exception is the one the per-scene call raised on the pair at some index
    below the shorter length, after the calls on the pairs before it
    returned. *)
Theorem image_to_video_prompts_truncate_to_shorter (scenes : list SceneOutput.t)
    (txt2img_prompts : list TextToImagePrompt.t) (σ : state World) :
  let shorter := Nat.min (length scenes) (length txt2img_prompts) in
  let call := λ '(scene, txt2img),
    _generate_single_img2vid_prompt generate_content text img2vid_output_parser
      scene txt2img in
  generate_image_to_video_prompts generate_content text img2vid_output_parser
    scenes txt2img_prompts σ =
  generate_image_to_video_prompts generate_content text img2vid_output_parser
    (take shorter scenes) (take shorter txt2img_prompts) σ ∧
  (∀ videos σ',
     loop_run call σ (zip scenes txt2img_prompts) videos σ' →
     generate_image_to_video_prompts generate_content text img2vid_output_parser
       scenes txt2img_prompts σ = (Ok videos, σ')) ∧
  match generate_image_to_video_prompts generate_content text
          img2vid_output_parser scenes txt2img_prompts σ with
  | (Ok videos, σ') =>
      length videos = shorter ∧
      loop_run call σ (zip scenes txt2img_prompts) videos σ'
  | (Raise e, σ') =>
      ∃ k scene txt2img earlier σ1,
        (k < shorter)%nat ∧
        scenes !! k = Some scene ∧ txt2img_prompts !! k = Some txt2img ∧
        loop_run call σ (take k (zip scenes txt2img_prompts)) earlier σ1 ∧
        _generate_single_img2vid_prompt generate_content text
          img2vid_output_parser scene txt2img σ1 = (Raise e, σ')
  end.
Proof.
  intros shorter call. split; [|split].
  - unfold generate_image_to_video_prompts.
    by rewrite zip_with_take_both' by (subst shorter; lia).
  - intros videos σ' Hrun. exact (loop_run_for_each _ _ _ _ _ [] Hrun).
  - pose proof (for_each_run_at call (zip scenes txt2img_prompts) σ) as Hloop.
    unfold call in Hloop. fold (generate_image_to_video_prompts generate_content
      text img2vid_output_parser scenes txt2img_prompts σ) in Hloop.
    destruct (generate_image_to_video_prompts generate_content text
                img2vid_output_parser scenes txt2img_prompts σ)
      as [[videos|e] σ'] eqn:Hrun.
    + split; [|done].
      by destruct (generate_image_to_video_prompts_Ok _ _ _ _ _ Hrun).
    + destruct Hloop as (k & [scene txt2img] & earlier & σ1 & Hk & Hearlier & Hraise).
      apply lookup_zip_with_Some in Hk as (scene' & txt2img' & [= <- <-] & Hs & Ht).
      exists k, scene, txt2img, earlier, σ1.
      split; [|done].
      apply lookup_lt_Some in Hs. apply lookup_lt_Some in Ht.
      subst shorter. lia.
Qed.

End Videos.

(** ** Runs on the concrete models *)

(** Two scenes are asked for and one scene input is supplied, and the model
    has two answers that parse: two scene outputs come back.  With one
    answer only, the call for the second scene raises and so does the
    loop. *)
Lemma generate_scenes_short_input_run :
  (∃ scenes σ',
     generate_scenes Scripted.generate_content Scripted.text
       Scripted.scene_output_parser Scripted.ad_details_two_scenes
       (Some [Scripted.scene_with_override]) (State ["scene"; "scene"] []) =
       (Ok scenes, σ') ∧
     Z.of_nat (length scenes) = 2) ∧
  (generate_scenes Scripted.generate_content Scripted.text
     Scripted.scene_output_parser Scripted.ad_details_two_scenes
     (Some [Scripted.scene_with_override]) (State ["scene"] [])).1 =
    Raise (Exception "no answer left").
Proof.
  split; [| vm_compute; reflexivity].
  assert (1 ≤ AdDetails.number_of_scenes Scripted.ad_details_two_scenes) as HN.
  { vm_compute. discriminate. }
  destruct (generate_scenes_count_is_authoritative Scripted.generate_content
              Scripted.text Scripted.scene_output_parser
              Scripted.ad_details_two_scenes
              (Some [Scripted.scene_with_override])
              (State ["scene"; "scene"] []) HN) as [_ Hrun].
  destruct (generate_scenes Scripted.generate_content Scripted.text
              Scripted.scene_output_parser Scripted.ad_details_two_scenes
              (Some [Scripted.scene_with_override])
              (State ["scene"; "scene"] [])) as [[scenes|e] σ'] eqn:E.
  - exists scenes, σ'. split; [reflexivity | exact (proj1 Hrun)].
  - apply (f_equal fst) in E. vm_compute in E. discriminate.
Defined.

(** Two scene outputs numbered 7 and 2 with two image prompts numbered 9,
    and a model with two answers that parse: the video prompts come back
    numbered 7 and 2.  With one answer only, the call on the second pair
    raises and so does the loop. *)
Lemma image_to_video_prompts_aligned_run :
  (∃ videos σ',
     generate_image_to_video_prompts Scripted.generate_content Scripted.text
       Scripted.img2vid_output_parser
       [Scripted.scene_seven; Scripted.scene_other]
       [Scripted.image_nine; Scripted.image_nine]
       (State ["video"; "video"] []) = (Ok videos, σ') ∧
     ∃ video, videos !! 1%nat = Some video ∧
       ImageToVideoPrompt.scene_number video = 2) ∧
  (generate_image_to_video_prompts Scripted.generate_content Scripted.text
     Scripted.img2vid_output_parser
     [Scripted.scene_seven; Scripted.scene_other]
     [Scripted.image_nine; Scripted.image_nine] (State ["video"] [])).1 =
    Raise (Exception "no answer left").
Proof.
  split; [| vm_compute; reflexivity].
  destruct (image_to_video_prompts_keep_scene_numbers Scripted.generate_content
              Scripted.text Scripted.img2vid_output_parser
              [Scripted.scene_seven; Scripted.scene_other]
              [Scripted.image_nine; Scripted.image_nine]
              (State ["video"; "video"] []) eq_refl) as [_ Hrun].
  destruct (generate_image_to_video_prompts Scripted.generate_content
              Scripted.text Scripted.img2vid_output_parser
              [Scripted.scene_seven; Scripted.scene_other]
              [Scripted.image_nine; Scripted.image_nine]
              (State ["video"; "video"] [])) as [[videos|e] σ'] eqn:E.
  - exists videos, σ'. split; [reflexivity |].
    destruct Hrun as (_ & _ & Hat).
    apply (Hat 1%nat Scripted.scene_other). reflexivity.
  - apply (f_equal fst) in E. vm_compute in E. discriminate.
Defined.

(** Two scene outputs with one image prompt, and a model with one answer
    that parses: one video prompt comes back. *)
Lemma image_to_video_prompts_unequal_run :
  ∃ videos σ',
    generate_image_to_video_prompts Scripted.generate_content Scripted.text
      Scripted.img2vid_output_parser
      [Scripted.scene_seven; Scripted.scene_other]
      [Scripted.image_nine] (State ["video"] []) = (Ok videos, σ') ∧
    length videos = 1%nat.
Proof.
  destruct (image_to_video_prompts_truncate_to_shorter Scripted.generate_content
              Scripted.text Scripted.img2vid_output_parser
              [Scripted.scene_seven; Scripted.scene_other]
              [Scripted.image_nine] (State ["video"] [])) as (_ & _ & Hrun).
  destruct (generate_image_to_video_prompts Scripted.generate_content
              Scripted.text Scripted.img2vid_output_parser
              [Scripted.scene_seven; Scripted.scene_other]
              [Scripted.image_nine] (State ["video"] []))
    as [[videos|e] σ'] eqn:E.
  - exists videos, σ'. split; [reflexivity | exact (proj1 Hrun)].
  - apply (f_equal fst) in E. vm_compute in E. discriminate.
Defined.

(** Two scenes under two models: one answers [scene] to every prompt, the
    other answers [scene] to the prompts of the first scene and [other] to
    the rest.  The second scene outputs differ, the first ones are the
    same. *)
Lemma generate_scenes_independent_run :
  let generate2 := Scripted.answering Scripted.first_scene_prompts "scene" "other" in
  (generate_scenes (Scripted.always "scene") Scripted.text
     Scripted.scene_output_parser Scripted.ad_details_two_scenes None
     (State 0%nat [])).1 = Ok [Scripted.scene_seven; Scripted.scene_seven] ∧
  (generate_scenes generate2 Scripted.text
     Scripted.scene_output_parser Scripted.ad_details_two_scenes None
     (State 0%nat [])).1 = Ok [Scripted.scene_seven; Scripted.scene_other] ∧
  ∃ scene,
    [Scripted.scene_seven; Scripted.scene_seven] !! Z.to_nat (1 - 1) = Some scene ∧
    [Scripted.scene_seven; Scripted.scene_other] !! Z.to_nat (1 - 1) = Some scene.
Proof.
  intros generate2.
  destruct (generate_scenes (Scripted.always "scene") Scripted.text
              Scripted.scene_output_parser Scripted.ad_details_two_scenes None
              (State 0%nat [])) as [r1 τ1] eqn:E1.
  destruct (generate_scenes generate2 Scripted.text
              Scripted.scene_output_parser Scripted.ad_details_two_scenes None
              (State 0%nat [])) as [r2 τ2] eqn:E2.
  assert (r1 = Ok [Scripted.scene_seven; Scripted.scene_seven]) as ->.
  { change r1 with (r1, τ1).1. rewrite <- E1. vm_compute. reflexivity. }
  assert (r2 = Ok [Scripted.scene_seven; Scripted.scene_other]) as ->.
  { change r2 with (r2, τ2).1. rewrite <- E2. vm_compute. reflexivity. }
  split; [reflexivity |]. split; [reflexivity |].
  apply (generate_scenes_scene_independent (Scripted.always "scene") generate2
           Scripted.text Scripted.scene_output_parser
           Scripted.ad_details_two_scenes None 1
           (State 0%nat []) τ1 (State 0%nat []) τ2 _ _).
  - vm_compute. split; discriminate.
  - intros p Hp w1 w2. apply list_elem_of_In in Hp.
    destruct Hp as [<- | [<- | []]]; vm_compute; reflexivity.
  - exact E1.
  - exact E2.
Defined.

(** ** The defaults of the prompt shapes *)

Section Defaults.
Variable str_validate : json → option string.
Variable int_validate : json → option Z.
Variable parse_json : string → option json.

(** C8. A model text that decodes to a JSON object without the keys
    [style_type] and [style_reference]: when it parses against the
    text-to-image shape, or against the image-to-video shape, the record has
    the style type [Photorealistic CGI] and the style reference
    [Gregory Crewdson]; and it does parse, against both shapes, as soon as
    its seven required fields validate: the record then holds their values
    and the two defaults. *)
Theorem style_defaults_when_omitted (text : string) (obj : gmap string json) :
  parse_json text = Some (JDict obj) →
  obj !! "style_type" = None →
  obj !! "style_reference" = None →
  (∀ prompt,
     pydantic_parse parse_json
       (TextToImagePrompt_validate str_validate int_validate) text = Ok prompt →
     TextToImagePrompt.style_type prompt = "Photorealistic CGI" ∧
     TextToImagePrompt.style_reference prompt = "Gregory Crewdson") ∧
  (∀ prompt,
     pydantic_parse parse_json
       (ImageToVideoPrompt_validate str_validate int_validate) text = Ok prompt →
     ImageToVideoPrompt.style_type prompt = "Photorealistic CGI" ∧
     ImageToVideoPrompt.style_reference prompt = "Gregory Crewdson") ∧
  (∀ scene_number characters action environment_location environment_lighting
     environment_details style_technique,
     field int_validate None "scene_number" obj = Some scene_number →
     field (characters_validate str_validate) None "characters" obj =
       Some characters →
     field str_validate None "action" obj = Some action →
     field str_validate None "environment_location" obj =
       Some environment_location →
     field str_validate None "environment_lighting" obj =
       Some environment_lighting →
     field str_validate None "environment_details" obj =
       Some environment_details →
     field str_validate None "style_technique" obj = Some style_technique →
     pydantic_parse parse_json
       (TextToImagePrompt_validate str_validate int_validate) text =
       Ok (TextToImagePrompt.mk scene_number characters action
             environment_location environment_lighting environment_details
             "Photorealistic CGI" style_technique "Gregory Crewdson") ∧
     pydantic_parse parse_json
       (ImageToVideoPrompt_validate str_validate int_validate) text =
       Ok (ImageToVideoPrompt.mk scene_number characters action
             environment_location environment_lighting environment_details
             "Photorealistic CGI" style_technique "Gregory Crewdson")).
Proof.
  intros Hjson Htype Href.
  split; [|split]; [intros prompt | intros prompt |];
    unfold pydantic_parse; rewrite Hjson; cbn [mbind option_bind].
  - unfold TextToImagePrompt_validate, field. rewrite Htype, Href.
    destruct (_ ≫= _) as [record|] eqn:Hrecord; [|done]. intros [= <-].
    repeat (apply bind_Some in Hrecord as (? & ? & Hrecord); cbv beta in Hrecord).
    by simplify_eq.
  - unfold ImageToVideoPrompt_validate, field. rewrite Htype, Href.
    destruct (_ ≫= _) as [record|] eqn:Hrecord; [|done]. intros [= <-].
    repeat (apply bind_Some in Hrecord as (? & ? & Hrecord); cbv beta in Hrecord).
    by simplify_eq.
  - intros scene_number characters action environment_location
      environment_lighting environment_details style_technique
      Hnumber Hcharacters Haction Hlocation Hlighting Hdetails Htechnique.
    unfold TextToImagePrompt_validate, ImageToVideoPrompt_validate.
    rewrite Hnumber, Hcharacters, Haction, Hlocation, Hlighting, Hdetails,
      Htechnique.
    unfold field. rewrite Htype, Href. done.
Qed.

End Defaults.

(** A prompt without its style fields, parsed against the text-to-image
    shape and against the image-to-video shape: both records have the two
    defaults. *)
Lemma style_defaults_run :
  (∃ prompt,
     pydantic_parse Scripted.parse_json
       (TextToImagePrompt_validate Scripted.strict_str Scripted.strict_int)
       "no style" = Ok prompt ∧
     TextToImagePrompt.style_type prompt = "Photorealistic CGI" ∧
     TextToImagePrompt.style_reference prompt = "Gregory Crewdson") ∧
  (∃ prompt,
     pydantic_parse Scripted.parse_json
       (ImageToVideoPrompt_validate Scripted.strict_str Scripted.strict_int)
       "no style" = Ok prompt ∧
     ImageToVideoPrompt.style_type prompt = "Photorealistic CGI" ∧
     ImageToVideoPrompt.style_reference prompt = "Gregory Crewdson").
Proof.
  destruct (style_defaults_when_omitted Scripted.strict_str Scripted.strict_int
              Scripted.parse_json "no style" Scripted.prompt_without_style)
    as (Himage & Hvideo & Hparses);
    [reflexivity | vm_compute; reflexivity | vm_compute; reflexivity |].
  destruct (Hparses 1 [] "Puts the headphones on" "Train carriage"
              "Cold morning light" "Blurred passengers" "Shallow depth of field")
    as [Eimage Evideo]; try (vm_compute; reflexivity).
  split.
  - eexists. split; [exact Eimage |]. exact (Himage _ Eimage).
  - eexists. split; [exact Evideo |]. exact (Hvideo _ Evideo).
Defined.

(** ** The prompts a loop sends *)

Section Traces.
Context {World A B : Type}.
Variable f : A → state World → result B * state World.
Variable sends : A → list string → Prop.
Hypothesis f_sends : ∀ x σ, ∃ new, calls (f x σ).2 = calls σ ++ new ∧ sends x new.

(** A loop runs its body on a prefix of its list, in order: on the whole
    list when it returns, and up to the first element on which the body
    raises otherwise; it ends in the state in which that body ended. *)
Lemma for_each_trace (xs : list A) (out : list B) (σ : state World) :
  ∃ (k : nat) (segs : list (list string)),
    Forall2 sends (take k xs) segs ∧
    calls (for_each f xs out σ).2 = calls σ ++ concat segs ∧
    match (for_each f xs out σ).1 with
    | Ok l => k = length xs ∧ length l = (length out + length xs)%nat
    | Raise e =>
        (0 < k)%nat ∧
        ∃ x σ1, xs !! pred k = Some x ∧ f x σ1 = (Raise e, (for_each f xs out σ).2)
    end.
Proof.
  revert out σ. induction xs as [|x xs IH]; intros out σ.
  - exists 0%nat, []. cbn. rewrite app_nil_r. repeat split; [constructor | lia].
  - cbn [for_each]. unfold bind.
    destruct (f_sends x σ) as (new & Hnew & Hsends).
    destruct (f x σ) as [[y|e] σ1] eqn:Hx; cbn [snd] in Hnew.
    + destruct (IH (out ++ [y]) σ1) as (k & segs & Hsegs & Hcalls & Hend).
      exists (S k), (new :: segs). split; [by constructor |].
      split; [by rewrite Hcalls, Hnew, <- app_assoc |].
      destruct (for_each f xs (out ++ [y]) σ1).1 as [l|e].
      * destruct Hend as [-> Hl]. rewrite length_app in Hl. cbn in *. lia.
      * destruct Hend as (Hk & x' & σ2 & Hx' & Hraise).
        split; [lia |]. exists x', σ2. split; [|done].
        destruct k; [lia | done].
    + exists 1%nat, [new]. split; [cbn; rewrite take_0; by repeat constructor |].
      split; [cbn; by rewrite app_nil_r |].
      cbn. split; [lia |]. by exists x, σ.
Qed.

End Traces.

(** A loop that raises ends with the exception and in the state of one run
    of its body. *)
Lemma for_each_raises {World A B : Type}
    (f : A → state World → result B * state World)
    (xs : list A) (out : list B) (σ σ' : state World) (e : exn) :
  for_each f xs out σ = (Raise e, σ') →
  ∃ x σ1, x ∈ xs ∧ f x σ1 = (Raise e, σ').
Proof.
  revert out σ. induction xs as [|x xs IH]; intros out σ; [done |].
  cbn [for_each]. unfold bind.
  destruct (f x σ) as [[y|e1] σ1] eqn:Hx.
  - intros (x' & σ2 & Hin & Hcall)%IH. exists x', σ2.
    split; [by apply list_elem_of_further | done].
  - intros [= <- <-]. exists x, σ. split; [apply list_elem_of_here | done].
Qed.

(** What is sent grows with the number of calls: between one and two prompts
    for each. *)
Lemma concat_one_or_two {X : Type} (sends : X → list string → Prop)
    (xs : list X) (segs : list (list string)) :
  (∀ x new, sends x new → (1 ≤ length new ≤ 2)%nat) →
  Forall2 sends xs segs →
  (length xs ≤ length (concat segs) ≤ 2 * length xs)%nat.
Proof.
  intros Hsends. induction 1 as [|x new xs segs Hx _ IH]; cbn; [lia |].
  rewrite length_app. pose proof (Hsends _ _ Hx). lia.
Qed.

Lemma one_or_two_length (prompt retry_prompt : string) (new : list string) :
  one_or_two prompt retry_prompt new → (1 ≤ length new ≤ 2)%nat.
Proof. intros [-> | ->]; cbn; lia. Qed.

Section CallSends.
Context {World Response : Type}.
Variable generate_content : string → World → result Response * World.
Variable text : Response → result string.

Lemma two_attempts_sends {T : Type} (parser : PydanticOutputParser T)
    (fix_record : T → T) (prompt retry_prompt : string) (σ : state World) :
  ∃ new,
    calls (two_attempts generate_content text parser fix_record prompt
             retry_prompt σ).2 = calls σ ++ new ∧
    one_or_two prompt retry_prompt new.
Proof.
  destruct (two_attempts_calls generate_content text parser fix_record prompt
              retry_prompt σ) as [H | H]; cbv zeta in H; rewrite H.
  - exists [prompt]. split; [done | by left].
  - exists [prompt; retry_prompt]. split; [done | by right].
Qed.

Lemma generate_single_scene_sends (parser : PydanticOutputParser SceneOutput.t)
    (ad_details : AdDetails.t) (input_scenes : option (list Scene.t))
    (i : Z) (σ : state World) :
  ∃ new,
    calls (_generate_single_scene generate_content text parser i
             (supplied_scene input_scenes i) ad_details σ).2 = calls σ ++ new ∧
    scene_call_sends (get_format_instructions parser) ad_details input_scenes i new.
Proof.
  rewrite generate_single_scene_two_attempts. apply two_attempts_sends.
Qed.

Lemma generate_single_txt2img_sends
    (parser : PydanticOutputParser TextToImagePrompt.t) (scene : SceneOutput.t)
    (σ : state World) :
  ∃ new,
    calls (_generate_single_txt2img_prompt generate_content text parser scene σ).2 =
      calls σ ++ new ∧
    txt2img_call_sends (get_format_instructions parser) scene new.
Proof.
  rewrite generate_single_txt2img_two_attempts. apply two_attempts_sends.
Qed.

Lemma generate_single_img2vid_sends
    (parser : PydanticOutputParser ImageToVideoPrompt.t)
    (pair : SceneOutput.t * TextToImagePrompt.t) (σ : state World) :
  ∃ new,
    calls (_generate_single_img2vid_prompt generate_content text parser
             pair.1 pair.2 σ).2 = calls σ ++ new ∧
    img2vid_call_sends (get_format_instructions parser) pair new.
Proof.
  rewrite generate_single_img2vid_two_attempts. apply two_attempts_sends.
Qed.

End CallSends.

Section Orders.
Context {World Response : Type}.
Variable generate_content : string → World → result Response * World.
Variable text : Response → result string.

(** X1. Whatever the model and the parser do, [generate_scenes] sends the
    prompts of the scenes in the order [1, 2, ...]: for each scene its
    prompt, followed by its retry prompt or not.  When it returns it has done
    so for all [N] scenes and returns [N] scene outputs; when it raises, the
    exception is that of the call for some scene [k], the state is the one
    that call left, and no prompt of a scene after [k] has been sent. *)
Theorem generate_scenes_prompts_in_order
    (scene_output_parser : PydanticOutputParser SceneOutput.t)
    (ad_details : AdDetails.t) (input_scenes : option (list Scene.t))
    (σ : state World) :
  let run :=
    generate_scenes generate_content text scene_output_parser ad_details
      input_scenes σ in
  ∃ (k : nat) (segs : list (list string)),
    Forall2
      (scene_call_sends (get_format_instructions scene_output_parser) ad_details
         input_scenes)
      (range 1 (1 + Z.of_nat k)) segs ∧
    calls run.2 = calls σ ++ concat segs ∧
    match run.1 with
    | Ok scenes =>
        k = Z.to_nat (AdDetails.number_of_scenes ad_details) ∧ length scenes = k
    | Raise e =>
        (1 ≤ k ≤ Z.to_nat (AdDetails.number_of_scenes ad_details))%nat ∧
        ∃ σ1,
          _generate_single_scene generate_content text scene_output_parser
            (Z.of_nat k) (supplied_scene input_scenes (Z.of_nat k)) ad_details σ1 =
          (Raise e, run.2)
    end.
Proof.
  intros run. subst run. rewrite generate_scenes_loop.
  set (N := AdDetails.number_of_scenes ad_details).
  destruct (for_each_trace
              (λ i, _generate_single_scene generate_content text
                      scene_output_parser i (supplied_scene input_scenes i) ad_details)
              (scene_call_sends (get_format_instructions scene_output_parser)
                 ad_details input_scenes)
              (generate_single_scene_sends generate_content text
                 scene_output_parser ad_details input_scenes)
              (range 1 (N + 1)) [] σ) as (k & segs & Hsegs & Hcalls & Hend).
  assert (length (range 1 (N + 1)) = Z.to_nat N) as Hlen.
  { unfold range. rewrite length_seqZ. lia. }
  exists k, segs.
  destruct (for_each _ _ _ σ).1 as [scenes | e].
  - destruct Hend as [-> Hscenes]. rewrite Hlen in *.
    rewrite take_range in Hsegs by lia. repeat split; [done.. | ].
    cbn in Hscenes. lia.
  - destruct Hend as (Hk & i & σ1 & Hi & Hraise).
    pose proof (lookup_lt_Some _ _ _ Hi) as Hlt. rewrite Hlen in Hlt.
    rewrite take_range in Hsegs by lia. split; [done |]. split; [done |].
    split; [lia |]. exists σ1.
    unfold range in Hi. apply lookup_seqZ in Hi as [-> _].
    by replace (Z.of_nat k) with (1 + Z.of_nat (pred k)) by lia.
Qed.

(** X2. The same for the two loops of the Prompt Derivation stage: the
    calls are made in the order of the list ([scenes], or the pairs of
    [zip(scenes, txt2img_prompts)]), each sends its prompt and then its retry
    prompt or not; a raise ends the loop in the state of the call that
    raised, and no later element is touched. *)
Theorem derived_prompts_in_order
    (txt2img_output_parser : PydanticOutputParser TextToImagePrompt.t)
    (img2vid_output_parser : PydanticOutputParser ImageToVideoPrompt.t)
    (scenes : list SceneOutput.t) (txt2img_prompts : list TextToImagePrompt.t)
    (σ : state World) :
  (let run :=
     generate_text_to_image_prompts generate_content text txt2img_output_parser
       scenes σ in
   ∃ (k : nat) (segs : list (list string)),
     Forall2 (txt2img_call_sends (get_format_instructions txt2img_output_parser))
       (take k scenes) segs ∧
     calls run.2 = calls σ ++ concat segs ∧
     match run.1 with
     | Ok prompts => k = length scenes ∧ length prompts = k
     | Raise e =>
         (0 < k)%nat ∧
         ∃ scene σ1,
           scenes !! pred k = Some scene ∧
           _generate_single_txt2img_prompt generate_content text
             txt2img_output_parser scene σ1 = (Raise e, run.2)
     end) ∧
  (let run :=
     generate_image_to_video_prompts generate_content text img2vid_output_parser
       scenes txt2img_prompts σ in
   ∃ (k : nat) (segs : list (list string)),
     Forall2 (img2vid_call_sends (get_format_instructions img2vid_output_parser))
       (take k (zip scenes txt2img_prompts)) segs ∧
     calls run.2 = calls σ ++ concat segs ∧
     match run.1 with
     | Ok prompts =>
         k = Nat.min (length scenes) (length txt2img_prompts) ∧ length prompts = k
     | Raise e =>
         (0 < k)%nat ∧
         ∃ scene txt2img σ1,
           scenes !! pred k = Some scene ∧
           txt2img_prompts !! pred k = Some txt2img ∧
           _generate_single_img2vid_prompt generate_content text
             img2vid_output_parser scene txt2img σ1 = (Raise e, run.2)
     end).
Proof.
  split; intros run; subst run.
  - unfold generate_text_to_image_prompts.
    destruct (for_each_trace
                (λ scene, _generate_single_txt2img_prompt generate_content text
                            txt2img_output_parser scene)
                (txt2img_call_sends (get_format_instructions txt2img_output_parser))
                (generate_single_txt2img_sends generate_content text
                   txt2img_output_parser)
                scenes [] σ) as (k & segs & Hsegs & Hcalls & Hend).
    exists k, segs. split; [done |]. split; [done |].
    destruct (for_each _ _ _ σ).1 as [prompts | e].
    + destruct Hend as [-> Hprompts]. split; [done |]. cbn in Hprompts. lia.
    + destruct Hend as (Hk & scene & σ1 & Hscene & Hraise). eauto.
  - unfold generate_image_to_video_prompts.
    destruct (for_each_trace
                (λ '(scene, txt2img_prompt),
                   _generate_single_img2vid_prompt generate_content text
                     img2vid_output_parser scene txt2img_prompt)
                (img2vid_call_sends (get_format_instructions img2vid_output_parser))
                (λ pair, match pair with
                         | (scene, txt2img) =>
                             generate_single_img2vid_sends generate_content text
                               img2vid_output_parser (scene, txt2img)
                         end)
                (zip scenes txt2img_prompts) [] σ)
      as (k & segs & Hsegs & Hcalls & Hend).
    exists k, segs. split; [done |]. split; [done |].
    destruct (for_each _ _ _ σ).1 as [prompts | e].
    + destruct Hend as [-> Hprompts]. rewrite length_zip_with in *.
      split; [done |]. cbn in Hprompts. lia.
    + destruct Hend as (Hk & [scene txt2img] & σ1 & Hpair & Hraise).
      split; [done |]. exists scene, txt2img, σ1.
      apply lookup_zip_with_Some in Hpair as (? & ? & [= <- <-] & ? & ?).
      done.
Qed.

End Orders.

(** ** More on the loops and on the call sites *)

Section MoreLoops.
Context {World Response : Type}.
Variable generate_content : string → World → result Response * World.
Variable text : Response → result string.

(** Both paths of the text-to-image call force the scene number. *)
Lemma generate_single_txt2img_scene_number
    (parser : PydanticOutputParser TextToImagePrompt.t) (scene : SceneOutput.t)
    (σ σ' : state World) (prompt : TextToImagePrompt.t) :
  _generate_single_txt2img_prompt generate_content text parser scene σ =
    (Ok prompt, σ') →
  TextToImagePrompt.scene_number prompt = SceneOutput.scene_number scene.
Proof.
  rewrite generate_single_txt2img_two_attempts.
  by intros [record ->]%two_attempts_Ok.
Qed.

Lemma generate_text_to_image_prompts_Ok
    (parser : PydanticOutputParser TextToImagePrompt.t)
    (scenes : list SceneOutput.t) (σ σ' : state World)
    (prompts : list TextToImagePrompt.t) :
  generate_text_to_image_prompts generate_content text parser scenes σ =
    (Ok prompts, σ') →
  length prompts = length scenes ∧
  ∀ i scene, scenes !! i = Some scene →
    ∃ prompt σ1 σ2,
      prompts !! i = Some prompt ∧
      _generate_single_txt2img_prompt generate_content text parser scene σ1 =
        (Ok prompt, σ2).
Proof.
  unfold generate_text_to_image_prompts. intros (ys & -> & Hys)%for_each_Ok.
  rewrite app_nil_l. split; [by rewrite <- (Forall2_length _ _ _ Hys) |].
  intros i scene Hscene.
  destruct (Forall2_lookup_l _ _ _ i scene Hys Hscene)
    as (prompt & Hprompt & σ1 & σ2 & Hcall).
  by exists prompt, σ1, σ2.
Qed.

(** X3. [generate_text_to_image_prompts] runs the per-scene calls on the
    scene outputs in the order of the list.  When these calls return, it
    returns their results; whenever it returns, it returns one prompt per
    scene output, and the prompt at index [i] has the scene number of the
    scene output at index [i], whatever number the model wrote; when it
    raises, the calls on the scene outputs before some index [k] have
    returned and the call on the one at [k] has raised that exception. *)
Theorem text_to_image_prompts_keep_scene_numbers
    (txt2img_output_parser : PydanticOutputParser TextToImagePrompt.t)
    (scenes : list SceneOutput.t) (σ : state World) :
  let call := λ scene,
    _generate_single_txt2img_prompt generate_content text txt2img_output_parser
      scene in
  (∀ prompts σ',
     loop_run call σ scenes prompts σ' →
     generate_text_to_image_prompts generate_content text txt2img_output_parser
       scenes σ = (Ok prompts, σ')) ∧
  match generate_text_to_image_prompts generate_content text
          txt2img_output_parser scenes σ with
  | (Ok prompts, σ') =>
      length prompts = length scenes ∧
      loop_run call σ scenes prompts σ' ∧
      ∀ i scene, scenes !! i = Some scene →
        ∃ prompt, prompts !! i = Some prompt ∧
          TextToImagePrompt.scene_number prompt = SceneOutput.scene_number scene
  | (Raise e, σ') =>
      ∃ k scene earlier σ1,
        scenes !! k = Some scene ∧
        loop_run call σ (take k scenes) earlier σ1 ∧
        call scene σ1 = (Raise e, σ')
  end.
Proof.
  intros call. split.
  - intros prompts σ' Hrun. exact (loop_run_for_each _ _ _ _ _ [] Hrun).
  - pose proof (for_each_run_at call scenes σ) as Hloop.
    unfold call in Hloop. fold (generate_text_to_image_prompts generate_content
      text txt2img_output_parser scenes σ) in Hloop.
    destruct (generate_text_to_image_prompts generate_content text
                txt2img_output_parser scenes σ) as [[prompts|e] σ'] eqn:Hrun.
    + destruct (generate_text_to_image_prompts_Ok _ _ _ _ _ Hrun) as [Hlen Hat].
      split; [done |]. split; [done |]. intros i scene Hscene.
      destruct (Hat i scene Hscene) as (prompt & σ1 & σ2 & Hprompt & Hcall).
      exists prompt. split; [done |].
      by eapply generate_single_txt2img_scene_number.
    + exact Hloop.
Qed.

(** X4. Nothing to generate: a scene count of zero or less, an empty list of
    scene outputs, or an empty list on either side of the zip, make the loop
    return the empty list at once, with no prompt sent and no error. *)
Theorem nothing_to_generate_sends_nothing
    (scene_output_parser : PydanticOutputParser SceneOutput.t)
    (txt2img_output_parser : PydanticOutputParser TextToImagePrompt.t)
    (img2vid_output_parser : PydanticOutputParser ImageToVideoPrompt.t) :
  (∀ ad_details input_scenes σ,
     AdDetails.number_of_scenes ad_details ≤ 0 →
     generate_scenes generate_content text scene_output_parser ad_details
       input_scenes σ = (Ok [], σ)) ∧
  (∀ σ,
     generate_text_to_image_prompts generate_content text txt2img_output_parser
       [] σ = (Ok [], σ)) ∧
  (∀ txt2img_prompts σ,
     generate_image_to_video_prompts generate_content text img2vid_output_parser
       [] txt2img_prompts σ = (Ok [], σ)) ∧
  (∀ scenes σ,
     generate_image_to_video_prompts generate_content text img2vid_output_parser
       scenes [] σ = (Ok [], σ)).
Proof.
  repeat split.
  - intros ad_details input_scenes σ HN. rewrite generate_scenes_loop.
    unfold range. by rewrite seqZ_nil by lia.
  - intros scenes σ. unfold generate_image_to_video_prompts.
    by destruct scenes.
Qed.

(** X5. The scene inputs beyond the scene count are never read, and no list
    is the same as an empty list: [generate_scenes] does on a list what it
    does on its first [N] elements. *)
Theorem generate_scenes_ignores_surplus_inputs
    (scene_output_parser : PydanticOutputParser SceneOutput.t)
    (ad_details : AdDetails.t) (input_scenes : list Scene.t) (σ : state World) :
  generate_scenes generate_content text scene_output_parser ad_details
    (Some input_scenes) σ =
  generate_scenes generate_content text scene_output_parser ad_details
    (Some (take (Z.to_nat (AdDetails.number_of_scenes ad_details)) input_scenes)) σ ∧
  generate_scenes generate_content text scene_output_parser ad_details None σ =
  generate_scenes generate_content text scene_output_parser ad_details (Some []) σ.
Proof.
  split; [|done].
  rewrite !generate_scenes_loop. apply for_each_ext.
  intros i σ1 [Hlo Hhi]%elem_of_seqZ. unfold supplied_scene.
  by rewrite lookup_take_lt by lia.
Qed.

(** X6. A completion that raises is not retried and not caught, at any of
    the four call sites: the exception leaves the call at once, after one
    prompt when the first completion raises, after two when the first answer
    did not parse and the completion of the retry raises. *)
Theorem completion_errors_leave_the_call
    (output_parser : PydanticOutputParser AdDetails.t)
    (scene_output_parser : PydanticOutputParser SceneOutput.t)
    (txt2img_output_parser : PydanticOutputParser TextToImagePrompt.t)
    (img2vid_output_parser : PydanticOutputParser ImageToVideoPrompt.t) :
  (∀ request,
     let prompt := ad_details_prompt (get_format_instructions output_parser) request in
     completion_errors_propagate generate_content text output_parser
       prompt (ad_details_retry_prompt prompt request)
       (generate_ad_details generate_content text output_parser request)) ∧
  (∀ scene_number input_scene ad_details,
     let prompt := scene_prompt (get_format_instructions scene_output_parser)
                     scene_number input_scene ad_details in
     completion_errors_propagate generate_content text scene_output_parser
       prompt (scene_retry_prompt prompt scene_number)
       (_generate_single_scene generate_content text scene_output_parser
          scene_number input_scene ad_details)) ∧
  (∀ scene,
     let prompt := txt2img_prompt (get_format_instructions txt2img_output_parser) scene in
     completion_errors_propagate generate_content text txt2img_output_parser
       prompt (txt2img_retry_prompt prompt scene)
       (_generate_single_txt2img_prompt generate_content text txt2img_output_parser scene)) ∧
  (∀ scene txt2img,
     let prompt := img2vid_prompt (get_format_instructions img2vid_output_parser)
                     scene txt2img in
     completion_errors_propagate generate_content text img2vid_output_parser
       prompt (img2vid_retry_prompt prompt scene)
       (_generate_single_img2vid_prompt generate_content text img2vid_output_parser
          scene txt2img)).
Proof.
  assert (∀ T (parser : PydanticOutputParser T) fix_record prompt retry_prompt call,
            (∀ σ, call σ = two_attempts generate_content text parser fix_record
                             prompt retry_prompt σ) →
            completion_errors_propagate generate_content text parser prompt
              retry_prompt call) as Hsite.
  { intros T parser fix_record prompt retry_prompt call Hcall σ.
    rewrite Hcall. unfold two_attempts. split.
    - by intros e w1 ->.
    - by intros response w1 e1 e w2 -> -> ->. }
  split; [|split; [|split]]; intros; eapply Hsite; intros σ.
  - apply generate_ad_details_two_attempts.
  - apply generate_single_scene_two_attempts.
  - apply generate_single_txt2img_two_attempts.
  - apply generate_single_img2vid_two_attempts.
Qed.

End MoreLoops.

(** ** The pipeline of main.py *)

(** A loop that returns has sent between one and two prompts per element
    when each run of its body sends one or two. *)
Lemma for_each_Ok_count {World A B : Type}
    (f : A → state World → result B * state World)
    (sends : A → list string → Prop) (xs : list A) (out l : list B)
    (σ σ' : state World) :
  (∀ x σ1, ∃ new, calls (f x σ1).2 = calls σ1 ++ new ∧ sends x new) →
  (∀ x new, sends x new → (1 ≤ length new ≤ 2)%nat) →
  for_each f xs out σ = (Ok l, σ') →
  ∃ new, calls σ' = calls σ ++ new ∧
    (length xs ≤ length new ≤ 2 * length xs)%nat.
Proof.
  intros Hf Hsends Hrun.
  destruct (for_each_trace f sends Hf xs out σ) as (k & segs & Hsegs & Hcalls & Hend).
  rewrite Hrun in Hcalls, Hend. cbn [fst snd] in Hcalls, Hend.
  destruct Hend as [-> _]. rewrite firstn_all in Hsegs.
  exists (concat segs). split; [done |]. by eapply concat_one_or_two.
Qed.

Section Pipeline.
Context {World Response : Type}.
Variable generate_content : string → World → result Response * World.
Variable text : Response → result string.
Variable output_parser : PydanticOutputParser AdDetails.t.
Variable scene_output_parser : PydanticOutputParser SceneOutput.t.
Variable txt2img_output_parser : PydanticOutputParser TextToImagePrompt.t.
Variable img2vid_output_parser : PydanticOutputParser ImageToVideoPrompt.t.

(** A run of [generate] that returns is a run of its four stages, each
    returning, each starting in the state the one before it left. *)
Lemma generate_Ok (request : AdStoryboardRequest.t) (σ σ' : state World)
    (storyboard : StoryboardOutput.t) :
  generate generate_content text output_parser scene_output_parser
    txt2img_output_parser img2vid_output_parser request σ = (Ok storyboard, σ') →
  ∃ σ1 σ2 σ3,
    generate_ad_details generate_content text output_parser request σ =
      (Ok (StoryboardOutput.ad_details storyboard), σ1) ∧
    generate_scenes generate_content text scene_output_parser
      (StoryboardOutput.ad_details storyboard)
      (AdStoryboardRequest.scenes request) σ1 =
      (Ok (StoryboardOutput.scenes storyboard), σ2) ∧
    generate_text_to_image_prompts generate_content text txt2img_output_parser
      (StoryboardOutput.scenes storyboard) σ2 =
      (Ok (StoryboardOutput.txt2img_prompts storyboard), σ3) ∧
    generate_image_to_video_prompts generate_content text img2vid_output_parser
      (StoryboardOutput.scenes storyboard)
      (StoryboardOutput.txt2img_prompts storyboard) σ3 =
      (Ok (StoryboardOutput.img2vid_prompts storyboard), σ').
Proof.
  unfold generate, bind, ret.
  destruct (generate_ad_details _ _ _ _ σ) as [[ad_details|?] σ1]; [|done].
  destruct (generate_scenes _ _ _ _ _ σ1) as [[scenes|?] σ2] eqn:E2; [|done].
  destruct (generate_text_to_image_prompts _ _ _ _ σ2)
    as [[images|?] σ3] eqn:E3; [|done].
  destruct (generate_image_to_video_prompts _ _ _ _ _ σ3)
    as [[videos|?] σ4] eqn:E4; [|done].
  intros H. simplify_eq. by exists σ1, σ2, σ3.
Qed.

(** X7. A storyboard that [generate] returns is aligned: the number of its
    scenes is the scene count of the Ad Details that the model returned
    (zero when that count is negative), it has one image prompt and one
    video prompt per scene, the three entries at an index carry the same
    scene number, and the video prompt at an index comes from the call on
    the scene and the image prompt at that index. *)
Theorem generate_storyboard_aligned (request : AdStoryboardRequest.t)
    (σ σ' : state World) (storyboard : StoryboardOutput.t) :
  generate generate_content text output_parser scene_output_parser
    txt2img_output_parser img2vid_output_parser request σ = (Ok storyboard, σ') →
  length (StoryboardOutput.scenes storyboard) =
    Z.to_nat (AdDetails.number_of_scenes (StoryboardOutput.ad_details storyboard)) ∧
  length (StoryboardOutput.txt2img_prompts storyboard) =
    length (StoryboardOutput.scenes storyboard) ∧
  length (StoryboardOutput.img2vid_prompts storyboard) =
    length (StoryboardOutput.scenes storyboard) ∧
  ∀ i scene, StoryboardOutput.scenes storyboard !! i = Some scene →
    ∃ image video σ1 σ2 σ3 σ4,
      StoryboardOutput.txt2img_prompts storyboard !! i = Some image ∧
      StoryboardOutput.img2vid_prompts storyboard !! i = Some video ∧
      TextToImagePrompt.scene_number image = SceneOutput.scene_number scene ∧
      ImageToVideoPrompt.scene_number video = SceneOutput.scene_number scene ∧
      _generate_single_txt2img_prompt generate_content text txt2img_output_parser
        scene σ1 = (Ok image, σ2) ∧
      _generate_single_img2vid_prompt generate_content text img2vid_output_parser
        scene image σ3 = (Ok video, σ4).
Proof.
  intros (τ1 & τ2 & τ3 & _ & Hscenes & Himages & Hvideos)%generate_Ok.
  destruct (generate_scenes_Ok _ _ _ _ _ _ _ _ Hscenes) as [Hn _].
  destruct (generate_text_to_image_prompts_Ok _ _ _ _ _ _ _ Himages) as [Hlen1 Hat1].
  destruct (generate_image_to_video_prompts_Ok _ _ _ _ _ _ _ _ Hvideos) as [Hlen2 Hat2].
  split; [done |]. split; [done |]. split; [lia |].
  intros i scene Hscene.
  destruct (Hat1 i scene Hscene) as (image & σ1 & σ2 & Himage & Hcall1).
  destruct (Hat2 i scene image Hscene Himage) as (video & σ3 & σ4 & Hvideo & Hcall2).
  exists image, video, σ1, σ2, σ3, σ4.
  repeat split; try done.
  - by eapply generate_single_txt2img_scene_number.
  - by eapply generate_single_img2vid_scene_number.
Qed.

(** X8. A run of [generate] that returns a storyboard of [n] scenes has sent
    the model at least [1 + 3 n] and at most [2 + 6 n] prompts. *)
Theorem generate_call_count (request : AdStoryboardRequest.t)
    (σ σ' : state World) (storyboard : StoryboardOutput.t) :
  generate generate_content text output_parser scene_output_parser
    txt2img_output_parser img2vid_output_parser request σ = (Ok storyboard, σ') →
  ∃ new,
    calls σ' = calls σ ++ new ∧
    (1 + 3 * length (StoryboardOutput.scenes storyboard) ≤ length new
     ≤ 2 + 6 * length (StoryboardOutput.scenes storyboard))%nat.
Proof.
  intros Hrun.
  destruct (generate_Ok _ _ _ _ Hrun)
    as (τ1 & τ2 & τ3 & Hdetails & Hscenes & Himages & Hvideos).
  destruct (generate_scenes_Ok _ _ _ _ _ _ _ _ Hscenes) as [Hn _].
  destruct (generate_text_to_image_prompts_Ok _ _ _ _ _ _ _ Himages) as [Hlen1 _].
  set (n := length (StoryboardOutput.scenes storyboard)) in *.
  (* the Ad Details call *)
  rewrite generate_ad_details_two_attempts in Hdetails. cbv zeta in Hdetails.
  match type of Hdetails with
  | two_attempts ?g ?t ?ps ?fx ?p ?rp σ = _ =>
      destruct (two_attempts_sends g t ps fx p rp σ) as (new0 & Hnew0 & Hlen0%one_or_two_length)
  end.
  rewrite Hdetails in Hnew0. cbn [snd] in Hnew0.
  (* the three loops *)
  rewrite generate_scenes_loop in Hscenes.
  eapply for_each_Ok_count in Hscenes as (new1 & Hnew1 & Hcount1);
    [ | apply generate_single_scene_sends
      | intros ? ? ?; by eapply one_or_two_length ].
  eapply for_each_Ok_count in Himages as (new2 & Hnew2 & Hcount2);
    [ | apply generate_single_txt2img_sends
      | intros ? ? ?; by eapply one_or_two_length ].
  eapply (for_each_Ok_count _
            (img2vid_call_sends (get_format_instructions img2vid_output_parser)))
    in Hvideos as (new3 & Hnew3 & Hcount3);
    [ | intros [scene image] σ1;
        apply (generate_single_img2vid_sends generate_content text
                 img2vid_output_parser (scene, image))
      | intros ? ? ?; by eapply one_or_two_length ].
  unfold range in Hcount1. rewrite length_seqZ in Hcount1.
  rewrite length_zip_with in Hcount3.
  exists (new0 ++ new1 ++ new2 ++ new3). split.
  - rewrite Hnew3, Hnew2, Hnew1, Hnew0. by rewrite <- !app_assoc.
  - rewrite !length_app. lia.
Qed.

End Pipeline.

(** An exception that leaves a structured-generation call is the exception
    of one of its two completions, of the accessor, or of the parser. *)
Lemma two_attempts_raises {World Response T : Type}
    (generate_content : string → World → result Response * World)
    (text : Response → result string) (parser : PydanticOutputParser T)
    (fix_record : T → T) (prompt retry_prompt : string)
    (σ σ' : state World) (e : exn) :
  two_attempts generate_content text parser fix_record prompt retry_prompt σ =
    (Raise e, σ') →
  (∃ p w w', generate_content p w = (Raise e, w')) ∨
  (∃ response, text response = Raise e) ∨
  (∃ t, parse parser t = Raise e).
Proof.
  unfold two_attempts.
  destruct (generate_content prompt _) as [[r1|e1] w1] eqn:E1;
    [| intros [= <- _]; left; eauto].
  destruct (parse_response _ _ r1); [done |].
  destruct (generate_content retry_prompt _) as [[r2|e2] w2] eqn:E2;
    [| intros [= <- _]; left; eauto].
  unfold parse_response.
  destruct (text r2) as [t|e2] eqn:Et.
  - destruct (parse parser t) eqn:Ep; [done |]. intros [= <- _]. right. right. eauto.
  - intros [= <- _]. right. left. eauto.
Qed.

Section Errors.
Context {World Response : Type}.
Variable generate_content : string → World → result Response * World.
Variable text : Response → result string.
Variable output_parser : PydanticOutputParser AdDetails.t.
Variable scene_output_parser : PydanticOutputParser SceneOutput.t.
Variable txt2img_output_parser : PydanticOutputParser TextToImagePrompt.t.
Variable img2vid_output_parser : PydanticOutputParser ImageToVideoPrompt.t.

(** X9. [generate] has no error of its own: an exception that leaves it was
    raised by a completion, by the accessor of a response or by one of the
    four parsers.  The index into the list of scene inputs, in particular,
    never raises. *)
Theorem generate_raises_only_what_was_raised (request : AdStoryboardRequest.t)
    (σ σ' : state World) (e : exn) :
  generate generate_content text output_parser scene_output_parser
    txt2img_output_parser img2vid_output_parser request σ = (Raise e, σ') →
  raised_outside generate_content text output_parser scene_output_parser
    txt2img_output_parser img2vid_output_parser e.
Proof.
  unfold generate, bind, ret, raised_outside.
  destruct (generate_ad_details _ _ _ _ σ) as [[ad_details|e0] σ1] eqn:E1.
  - destruct (generate_scenes _ _ _ _ _ σ1) as [[scenes|e1] σ2] eqn:E2.
    + destruct (generate_text_to_image_prompts _ _ _ _ σ2)
        as [[images|e2] σ3] eqn:E3.
      * destruct (generate_image_to_video_prompts _ _ _ _ _ σ3)
          as [[videos|e3] σ4] eqn:E4; [done |].
        intros [= <- _]. unfold generate_image_to_video_prompts in E4.
        apply for_each_raises in E4 as ([scene image] & τ & _ & Hcall).
        rewrite generate_single_img2vid_two_attempts in Hcall.
        apply two_attempts_raises in Hcall. tauto.
      * intros [= <- _]. unfold generate_text_to_image_prompts in E3.
        apply for_each_raises in E3 as (scene & τ & _ & Hcall).
        rewrite generate_single_txt2img_two_attempts in Hcall.
        apply two_attempts_raises in Hcall. tauto.
    + intros [= <- _]. rewrite generate_scenes_loop in E2.
      apply for_each_raises in E2 as (i & τ & _ & Hcall).
      rewrite generate_single_scene_two_attempts in Hcall.
      apply two_attempts_raises in Hcall. tauto.
  - intros [= <- _]. rewrite generate_ad_details_two_attempts in E1.
    apply two_attempts_raises in E1. tauto.
Qed.

End Errors.

(** ** More on the instruction bodies *)

Lemma starts_with_app_cong (a s t : string) :
  starts_with s t = true → starts_with (a +:+ s) (a +:+ t) = true.
Proof.
  intros H. induction a as [|c a IH]; [done |].
  rewrite !append_cons. cbn. by rewrite Ascii.eqb_refl.
Qed.

Lemma starts_with_app_more (s b rest : string) :
  starts_with s b = true → starts_with s (b +:+ rest) = true.
Proof.
  intros [after ->]%starts_with_split. rewrite append_assoc_str.
  apply starts_with_append.
Qed.

Lemma starts_with_occurs (s t : string) : starts_with s t = true → occurs_in s t.
Proof. intros [after ->]%starts_with_split. by exists "", after. Qed.

(** A run of values and literal pieces after the end of a literal piece. *)
Lemma occurs_in_suffix_run (label s a t : string) :
  ends_with label a = true → starts_with s t = true →
  occurs_in (label +:+ s) (a +:+ t).
Proof.
  intros [before ->]%ends_with_split [after ->]%starts_with_split.
  exists before, after. by rewrite !append_assoc_str.
Qed.

Lemma request_line_shape (label value : string) :
  request_line label value = ("- " +:+ label +:+ ": ") +:+ value +:+ nl.
Proof. unfold request_line. by rewrite !append_assoc_str. Qed.

(** Every element of a joined list occurs in the join. *)
Lemma concat_occurs (sep x : string) (l : list string) :
  x ∈ l → occurs_in x (String.concat sep l).
Proof.
  induction l as [|y l IH]; intros Hx; [by apply elem_of_nil in Hx |].
  apply elem_of_cons in Hx as [-> | Hx].
  - destruct l; cbn; [apply occurs_in_refl |].
    apply occurs_in_app_l, occurs_in_refl.
  - destruct l as [|z l]; [by apply elem_of_nil in Hx |].
    cbn [String.concat]. apply occurs_in_app_r, occurs_in_app_r. by apply IH.
Qed.

Ltac close_run :=
  repeat apply starts_with_app_cong;
  first [ apply starts_with_app_more; vm_compute; reflexivity
        | vm_compute; reflexivity ].

(** Finds a run of values and literal pieces in a text built by
    concatenation. *)
Ltac find_line :=
  repeat first
    [ solve [ apply occurs_in_suffix_run; [vm_compute; reflexivity | close_run] ]
    | solve [ apply starts_with_occurs; close_run ]
    | apply occurs_in_app_r ].

(** X10. Each of the four retry prompts repeats the prompt it follows,
    unchanged, and pins in its JSON example the number the stage already
    knows: the scene count of the request for the Ad Details, the number of
    the scene for the three per-scene calls. *)
Theorem retry_prompts_repeat_the_prompt (prompt : string)
    (request : AdStoryboardRequest.t) (i : Z) (scene : SceneOutput.t) :
  (str_in prompt (ad_details_retry_prompt prompt request) = true ∧
   str_in (quoted "number_of_scenes" +:+ ": " +:+
           format_optional_int (AdStoryboardRequest.number_of_scenes request) +:+ nl)
     (ad_details_retry_prompt prompt request) = true) ∧
  (str_in prompt (scene_retry_prompt prompt i) = true ∧
   str_in (quoted "scene_number" +:+ ": " +:+ format_int i +:+ ",")
     (scene_retry_prompt prompt i) = true) ∧
  (str_in prompt (txt2img_retry_prompt prompt scene) = true ∧
   str_in (quoted "scene_number" +:+ ": " +:+
           format_int (SceneOutput.scene_number scene) +:+ ",")
     (txt2img_retry_prompt prompt scene) = true) ∧
  (str_in prompt (img2vid_retry_prompt prompt scene) = true ∧
   str_in (quoted "scene_number" +:+ ": " +:+
           format_int (SceneOutput.scene_number scene) +:+ ",")
     (img2vid_retry_prompt prompt scene) = true).
Proof.
  repeat split; apply str_in_occurs.
  - unfold ad_details_retry_prompt. apply occurs_in_app_r, occurs_in_app_l, occurs_in_refl.
  - unfold ad_details_retry_prompt. find_line.
  - apply scene_retry_prompt_repeats.
  - unfold scene_retry_prompt. find_line.
  - unfold txt2img_retry_prompt. apply occurs_in_app_r, occurs_in_app_l, occurs_in_refl.
  - unfold txt2img_retry_prompt. find_line.
  - unfold img2vid_retry_prompt. apply occurs_in_app_r, occurs_in_app_l, occurs_in_refl.
  - unfold img2vid_retry_prompt. find_line.
Qed.

(** X11. The scene prompt quotes the Ad Details: it has a line for each of
    the nine text fields under its label, it names the scene by its number,
    and its last rule repeats the key message. *)
Theorem scene_prompt_quotes_ad_details (format_instructions : string) (i : Z)
    (input_scene : Scene.t) (ad_details : AdDetails.t) :
  (∀ label get, (label, get) ∈ ad_details_fields →
     str_in (request_line label (get ad_details))
       (scene_prompt format_instructions i input_scene ad_details) = true) ∧
  str_in ("Input Scene Details (Scene " +:+ format_int i +:+ "):")
    (scene_prompt format_instructions i input_scene ad_details) = true ∧
  str_in ("8. The scene must clearly mention the Key Message: " +:+
          AdDetails.key_message ad_details +:+ nl)
    (scene_prompt format_instructions i input_scene ad_details) = true.
Proof.
  split; [|split].
  - intros label get Hin. apply str_in_occurs.
    unfold ad_details_fields in Hin. rewrite !elem_of_cons, elem_of_nil in Hin.
    rewrite request_line_shape. unfold scene_prompt. cbv zeta.
    repeat (destruct Hin as [[= -> ->] | Hin]; [find_line |]).
    done.
  - apply str_in_occurs. unfold scene_prompt. cbv zeta. find_line.
  - apply str_in_occurs. unfold scene_prompt. cbv zeta. find_line.
Qed.

Lemma scene_prompt_text_field (format_instructions : string) (i : Z)
    (input_scene : Scene.t) (ad_details : AdDetails.t) (label : string)
    (get : Scene.t → option string) :
  (label, get) ∈ scene_text_fields →
  occurs_in (request_line label (str_or (get input_scene) "Not specified"))
    (scene_prompt format_instructions i input_scene ad_details).
Proof.
  intros Hin. unfold scene_text_fields in Hin.
  rewrite !elem_of_cons, elem_of_nil in Hin.
  rewrite request_line_shape. unfold scene_prompt. cbv zeta.
  repeat (destruct Hin as [[= -> ->] | Hin]; [find_line |]).
  done.
Qed.

(** X12. The scene prompt renders the scene input with sentinels: each of
    its five text fields has a line holding its value, or [Not specified]
    when the value is absent or empty; the line of the override holds
    [Not specified (follow normal generation)] when there is no override.
    For the scene [Scene()] that stands for a missing input, all six lines
    hold their sentinel. *)
Theorem scene_prompt_renders_scene_input (format_instructions : string) (i : Z)
    (input_scene : Scene.t) (ad_details : AdDetails.t) :
  (∀ label get, (label, get) ∈ scene_text_fields →
     (get input_scene = None ∨ get input_scene = Some "" →
      str_in (request_line label "Not specified")
        (scene_prompt format_instructions i input_scene ad_details) = true) ∧
     (∀ s, get input_scene = Some s → s ≠ "" →
      str_in (request_line label s)
        (scene_prompt format_instructions i input_scene ad_details) = true)) ∧
  (Scene.user_recommendation input_scene = None ∨
   Scene.user_recommendation input_scene = Some "" →
   str_in (request_line "User Recommendations"
             "Not specified (follow normal generation)")
     (scene_prompt format_instructions i input_scene ad_details) = true) ∧
  (∀ label get, (label, get) ∈ scene_text_fields →
     str_in (request_line label "Not specified")
       (scene_prompt format_instructions i Scene.new ad_details) = true).
Proof.
  split; [|split].
  - intros label get Hin.
    pose proof (scene_prompt_text_field format_instructions i input_scene
                  ad_details _ _ Hin) as H.
    split.
    + intros Habsent. apply str_in_occurs. by rewrite str_or_absent in H.
    + intros s Hs Hne. apply str_in_occurs. by rewrite (str_or_present _ s) in H.
  - intros Habsent. apply str_in_occurs.
    rewrite <- (str_or_absent (Scene.user_recommendation input_scene)
                  "Not specified (follow normal generation)" Habsent).
    rewrite request_line_shape. unfold scene_prompt. cbv zeta. find_line.
  - intros label get Hin.
    pose proof (scene_prompt_text_field format_instructions i Scene.new
                  ad_details _ _ Hin) as H.
    apply str_in_occurs. rewrite str_or_absent in H; [done |].
    unfold scene_text_fields in Hin. rewrite !elem_of_cons, elem_of_nil in Hin.
    repeat (destruct Hin as [[= -> ->] | Hin]; [by left |]). done.
Qed.

(** X13. The two derived prompts quote five fields of the scene output
    (characters, environment, time of day, visuals, camera work), each on a
    line under its label, and name the scene by its number; they read
    nothing else of it: the duration, the goal, the sound design and the
    transition of the scene do not reach them. *)
Theorem derived_prompts_quote_scene_details (format_instructions : string)
    (scene : SceneOutput.t) (txt2img : TextToImagePrompt.t) :
  (∀ label get, (label, get) ∈ scene_detail_fields →
     str_in (request_line label (get scene))
       (txt2img_prompt format_instructions scene) = true ∧
     str_in (request_line label (get scene))
       (img2vid_prompt format_instructions scene txt2img) = true) ∧
  (str_in ("TEXT-TO-IMAGE PROMPT FOR SCENE " +:+
           format_int (SceneOutput.scene_number scene) +:+ ":")
     (txt2img_prompt format_instructions scene) = true ∧
   str_in ("IMAGE-TO-VIDEO PROMPT FOR SCENE " +:+
           format_int (SceneOutput.scene_number scene) +:+ ":")
     (img2vid_prompt format_instructions scene txt2img) = true) ∧
  (∀ scene_duration scene_goal sound_design transition,
     txt2img_prompt format_instructions
       (with_unquoted_fields scene_duration scene_goal sound_design transition scene) =
     txt2img_prompt format_instructions scene ∧
     img2vid_prompt format_instructions
       (with_unquoted_fields scene_duration scene_goal sound_design transition scene)
       txt2img =
     img2vid_prompt format_instructions scene txt2img).
Proof.
  split; [|split].
  - intros label get Hin.
    unfold scene_detail_fields in Hin. rewrite !elem_of_cons, elem_of_nil in Hin.
    split; apply str_in_occurs; rewrite request_line_shape.
    + unfold txt2img_prompt. cbv zeta.
      repeat (destruct Hin as [[= -> ->] | Hin]; [find_line |]). done.
    + unfold img2vid_prompt. cbv zeta.
      repeat (destruct Hin as [[= -> ->] | Hin]; [find_line |]). done.
  - split; apply str_in_occurs.
    + unfold txt2img_prompt. cbv zeta. find_line.
    + unfold img2vid_prompt. cbv zeta. find_line.
  - intros. split; reflexivity.
Qed.

(** X14. The image-to-video prompt is grounded in the image prompt of the
    scene: it quotes every character of that prompt with its name,
    appearance, clothing and expression, and has the lines of its action,
    of its location with its lighting, and of its style type with its
    technique.  The environment details and the style reference of the
    image prompt do not reach it. *)
Theorem img2vid_prompt_quotes_image_prompt (format_instructions : string)
    (scene : SceneOutput.t) (txt2img : TextToImagePrompt.t) :
  (∀ char, char ∈ TextToImagePrompt.characters txt2img →
     str_in ("Character Name: " +:+ CharacterDetails.name char +:+
             ", Appearance: " +:+ CharacterDetails.appearance char +:+
             ", Clothing: " +:+ CharacterDetails.clothing char +:+
             ", Expression: " +:+ CharacterDetails.expression char)
       (img2vid_prompt format_instructions scene txt2img) = true) ∧
  str_in (request_line "Action" (TextToImagePrompt.action txt2img))
    (img2vid_prompt format_instructions scene txt2img) = true ∧
  str_in ("- Environment: " +:+ TextToImagePrompt.environment_location txt2img +:+
          ", " +:+ TextToImagePrompt.environment_lighting txt2img +:+ nl)
    (img2vid_prompt format_instructions scene txt2img) = true ∧
  str_in ("- Style: " +:+ TextToImagePrompt.style_type txt2img +:+
          ", " +:+ TextToImagePrompt.style_technique txt2img +:+ nl)
    (img2vid_prompt format_instructions scene txt2img) = true ∧
  (∀ environment_details style_reference,
     img2vid_prompt format_instructions scene
       (TextToImagePrompt.mk (TextToImagePrompt.scene_number txt2img)
          (TextToImagePrompt.characters txt2img) (TextToImagePrompt.action txt2img)
          (TextToImagePrompt.environment_location txt2img)
          (TextToImagePrompt.environment_lighting txt2img) environment_details
          (TextToImagePrompt.style_type txt2img)
          (TextToImagePrompt.style_technique txt2img) style_reference) =
     img2vid_prompt format_instructions scene txt2img).
Proof.
  split; [|split; [|split; [|split]]].
  - intros char Hchar. apply str_in_occurs.
    assert (occurs_in (character_line char)
              (String.concat ", "
                 (character_line <$> TextToImagePrompt.characters txt2img))) as H.
    { apply concat_occurs. by apply list_elem_of_fmap_2. }
    unfold character_line at 1 in H. unfold img2vid_prompt. cbv zeta.
    repeat first [ solve [ apply occurs_in_app_l; exact H ] | apply occurs_in_app_r ].
  - apply str_in_occurs. rewrite request_line_shape.
    unfold img2vid_prompt. cbv zeta. find_line.
  - apply str_in_occurs. unfold img2vid_prompt. cbv zeta. find_line.
  - apply str_in_occurs. unfold img2vid_prompt. cbv zeta. find_line.
  - reflexivity.
Qed.

(** ** More on the validation of the shapes *)

Section Shapes.
Variable str_validate : json → option string.
Variable int_validate : json → option Z.
Variable parse_json : string → option json.

(** A field with no default is there when the object validates. *)
Lemma field_required {A : Type} (validate : json → option A) (name : string)
    (obj : gmap string json) (x : A) :
  field validate None name obj = Some x → is_Some (obj !! name).
Proof. unfold field. destruct (obj !! name); [eauto | done]. Qed.

Lemma AdDetails_validate_keys (obj : gmap string json) (record : AdDetails.t)
    (key : string) :
  AdDetails_validate str_validate int_validate (JDict obj) = Some record →
  key ∈ AdDetails_required → is_Some (obj !! key).
Proof.
  unfold AdDetails_validate, AdDetails_required. intros H Hin.
  repeat (apply bind_Some in H as (? & ?%field_required & H); cbv beta in H).
  rewrite !elem_of_cons, elem_of_nil in Hin.
  repeat (destruct Hin as [-> | Hin]; [done |]); done.
Qed.

Lemma SceneOutput_validate_keys (obj : gmap string json) (record : SceneOutput.t)
    (key : string) :
  SceneOutput_validate str_validate int_validate (JDict obj) = Some record →
  key ∈ SceneOutput_required → is_Some (obj !! key).
Proof.
  unfold SceneOutput_validate, SceneOutput_required. intros H Hin.
  repeat (apply bind_Some in H as (? & ?%field_required & H); cbv beta in H).
  rewrite !elem_of_cons, elem_of_nil in Hin.
  repeat (destruct Hin as [-> | Hin]; [done |]); done.
Qed.

Lemma TextToImagePrompt_validate_keys (obj : gmap string json)
    (record : TextToImagePrompt.t) (key : string) :
  TextToImagePrompt_validate str_validate int_validate (JDict obj) = Some record →
  key ∈ prompt_required → is_Some (obj !! key).
Proof.
  unfold TextToImagePrompt_validate, prompt_required. intros H Hin.
  repeat (apply bind_Some in H as (? & ? & H); cbv beta in H).
  repeat match goal with
         | Hf : field _ None _ _ = Some _ |- _ => apply field_required in Hf
         end.
  rewrite !elem_of_cons, elem_of_nil in Hin.
  repeat (destruct Hin as [-> | Hin]; [done |]); done.
Qed.

Lemma ImageToVideoPrompt_validate_keys (obj : gmap string json)
    (record : ImageToVideoPrompt.t) (key : string) :
  ImageToVideoPrompt_validate str_validate int_validate (JDict obj) = Some record →
  key ∈ prompt_required → is_Some (obj !! key).
Proof.
  unfold ImageToVideoPrompt_validate, prompt_required. intros H Hin.
  repeat (apply bind_Some in H as (? & ? & H); cbv beta in H).
  repeat match goal with
         | Hf : field _ None _ _ = Some _ |- _ => apply field_required in Hf
         end.
  rewrite !elem_of_cons, elem_of_nil in Hin.
  repeat (destruct Hin as [-> | Hin]; [done |]); done.
Qed.

Lemma pydantic_parse_fails {T : Type} (validate : json → option T)
    (text : string) (v : json) :
  parse_json text = Some v → validate v = None →
  pydantic_parse parse_json validate text = Raise (OutputParserException text).
Proof. intros Hjson Hv. unfold pydantic_parse. by rewrite Hjson; cbn; rewrite Hv. Qed.

(** X15. A model text whose JSON object lacks a field that the shape
    declares without a default does not parse: the parser raises
    [OutputParserException].  This holds for every field of the Ad Details
    and of the scene output, and for every field of the two prompt shapes
    but the style type and the style reference. *)
Theorem missing_required_field_fails (text : string) (obj : gmap string json)
    (key : string) :
  parse_json text = Some (JDict obj) →
  obj !! key = None →
  (key ∈ AdDetails_required →
   pydantic_parse parse_json (AdDetails_validate str_validate int_validate) text =
     Raise (OutputParserException text)) ∧
  (key ∈ SceneOutput_required →
   pydantic_parse parse_json (SceneOutput_validate str_validate int_validate) text =
     Raise (OutputParserException text)) ∧
  (key ∈ prompt_required →
   pydantic_parse parse_json (TextToImagePrompt_validate str_validate int_validate)
     text = Raise (OutputParserException text) ∧
   pydantic_parse parse_json (ImageToVideoPrompt_validate str_validate int_validate)
     text = Raise (OutputParserException text)).
Proof.
  intros Hjson Hkey.
  assert (¬ is_Some (obj !! key)) as Hno by (rewrite Hkey; by intros [? ?]).
  split; [|split]; intros Hin; [| |split];
    apply (pydantic_parse_fails _ _ _ Hjson);
    match goal with |- ?validate = None =>
      destruct validate as [record|] eqn:E; [exfalso; apply Hno | done]
    end.
  - by eapply AdDetails_validate_keys.
  - by eapply SceneOutput_validate_keys.
  - by eapply TextToImagePrompt_validate_keys.
  - by eapply ImageToVideoPrompt_validate_keys.
Qed.

(** X16. The two style constants are defaults and nothing more: when the
    JSON object of the model has a style type and a style reference of its
    own and the text parses, the record holds the values of the model. *)
Theorem style_fields_keep_model_values (text : string) (obj : gmap string json)
    (style_type style_reference : json) :
  parse_json text = Some (JDict obj) →
  obj !! "style_type" = Some style_type →
  obj !! "style_reference" = Some style_reference →
  (∀ prompt,
     pydantic_parse parse_json
       (TextToImagePrompt_validate str_validate int_validate) text = Ok prompt →
     str_validate style_type = Some (TextToImagePrompt.style_type prompt) ∧
     str_validate style_reference = Some (TextToImagePrompt.style_reference prompt)) ∧
  (∀ prompt,
     pydantic_parse parse_json
       (ImageToVideoPrompt_validate str_validate int_validate) text = Ok prompt →
     str_validate style_type = Some (ImageToVideoPrompt.style_type prompt) ∧
     str_validate style_reference = Some (ImageToVideoPrompt.style_reference prompt)).
Proof.
  intros Hjson Htype Href.
  split; intros prompt; unfold pydantic_parse; rewrite Hjson; cbn [mbind option_bind].
  - unfold TextToImagePrompt_validate, field. rewrite Htype, Href.
    destruct (_ ≫= _) as [record|] eqn:Hrecord; [|done]. intros [= <-].
    repeat (apply bind_Some in Hrecord as (? & ? & Hrecord); cbv beta in Hrecord).
    by simplify_eq.
  - unfold ImageToVideoPrompt_validate, field. rewrite Htype, Href.
    destruct (_ ≫= _) as [record|] eqn:Hrecord; [|done]. intros [= <-].
    repeat (apply bind_Some in Hrecord as (? & ? & Hrecord); cbv beta in Hrecord).
    by simplify_eq.
Qed.

End Shapes.

(** ** More runs on the concrete models *)

(** Two scene outputs numbered 7 and 2, and a model with two answers, each
    an image prompt numbered 9: the image prompts come back numbered 7 and
    2.  With one answer only, the call on the second scene output raises and
    so does the loop. *)
Lemma text_to_image_prompts_run :
  (∃ prompts σ',
     generate_text_to_image_prompts Scripted.generate_content Scripted.text
       Scripted.txt2img_output_parser
       [Scripted.scene_seven; Scripted.scene_other]
       (State ["image"; "image"] []) = (Ok prompts, σ') ∧
     ∃ prompt, prompts !! 1%nat = Some prompt ∧
       TextToImagePrompt.scene_number prompt = 2) ∧
  (generate_text_to_image_prompts Scripted.generate_content Scripted.text
     Scripted.txt2img_output_parser
     [Scripted.scene_seven; Scripted.scene_other] (State ["image"] [])).1 =
    Raise (Exception "no answer left").
Proof.
  split; [| vm_compute; reflexivity].
  destruct (text_to_image_prompts_keep_scene_numbers Scripted.generate_content
              Scripted.text Scripted.txt2img_output_parser
              [Scripted.scene_seven; Scripted.scene_other]
              (State ["image"; "image"] [])) as [_ Hrun].
  destruct (generate_text_to_image_prompts Scripted.generate_content
              Scripted.text Scripted.txt2img_output_parser
              [Scripted.scene_seven; Scripted.scene_other]
              (State ["image"; "image"] [])) as [[prompts|e] σ'] eqn:E.
  - exists prompts, σ'. split; [reflexivity |].
    destruct Hrun as (_ & _ & Hat).
    apply (Hat 1%nat Scripted.scene_other). reflexivity.
  - apply (f_equal fst) in E. vm_compute in E. discriminate.
Defined.

(** The request of the override scenario through the whole pipeline: the
    storyboard has as many image prompts and video prompts as scenes. *)
Lemma generate_storyboard_run :
  ∃ storyboard σ',
    generate Scripted.generate_content Scripted.text Scripted.output_parser
      Scripted.scene_output_parser Scripted.txt2img_output_parser
      Scripted.img2vid_output_parser Scripted.request
      (State ["details"; "scene"; "image"; "video"] []) = (Ok storyboard, σ') ∧
    length (StoryboardOutput.txt2img_prompts storyboard) =
      length (StoryboardOutput.scenes storyboard) ∧
    length (StoryboardOutput.img2vid_prompts storyboard) =
      length (StoryboardOutput.scenes storyboard).
Proof.
  destruct (generate Scripted.generate_content Scripted.text Scripted.output_parser
              Scripted.scene_output_parser Scripted.txt2img_output_parser
              Scripted.img2vid_output_parser Scripted.request
              (State ["details"; "scene"; "image"; "video"] []))
    as [[storyboard | e] σ'] eqn:E.
  - exists storyboard, σ'. split; [reflexivity |].
    destruct (generate_storyboard_aligned _ _ _ _ _ _ _ _ _ _ E)
      as (_ & Himages & Hvideos & _).
    split; [exact Himages | exact Hvideos].
  - apply (f_equal fst) in E. vm_compute in E. discriminate.
Defined.

(** The same run sends between four and eight prompts. *)
Lemma generate_call_count_run :
  ∃ storyboard σ' new,
    generate Scripted.generate_content Scripted.text Scripted.output_parser
      Scripted.scene_output_parser Scripted.txt2img_output_parser
      Scripted.img2vid_output_parser Scripted.request
      (State ["details"; "scene"; "image"; "video"] []) = (Ok storyboard, σ') ∧
    calls σ' = [] ++ new ∧
    (1 + 3 * length (StoryboardOutput.scenes storyboard) ≤ length new
     ≤ 2 + 6 * length (StoryboardOutput.scenes storyboard))%nat.
Proof.
  destruct (generate Scripted.generate_content Scripted.text Scripted.output_parser
              Scripted.scene_output_parser Scripted.txt2img_output_parser
              Scripted.img2vid_output_parser Scripted.request
              (State ["details"; "scene"; "image"; "video"] []))
    as [[storyboard | e] σ'] eqn:E.
  - destruct (generate_call_count _ _ _ _ _ _ _ _ _ _ E) as (new & Hnew & Hcount).
    exists storyboard, σ', new. split; [reflexivity |].
    split; [exact Hnew | exact Hcount].
  - apply (f_equal fst) in E. vm_compute in E. discriminate.
Defined.

(** A model whose scene answers never parse: the exception that leaves the
    pipeline is the one the scene parser raised. *)
Lemma generate_raises_run :
  raised_outside Scripted.generate_content Scripted.text Scripted.output_parser
    Scripted.scene_output_parser Scripted.txt2img_output_parser
    Scripted.img2vid_output_parser (OutputParserException "garbage").
Proof.
  destruct (generate Scripted.generate_content Scripted.text Scripted.output_parser
              Scripted.scene_output_parser Scripted.txt2img_output_parser
              Scripted.img2vid_output_parser Scripted.request
              (State ["details"; "garbage"; "garbage"] []))
    as [[storyboard | e] σ'] eqn:E.
  - apply (f_equal fst) in E. vm_compute in E. discriminate.
  - assert (e = OutputParserException "garbage") as ->.
    { pose proof (f_equal fst E) as E'. vm_compute in E'. by injection E' as <-. }
    exact (generate_raises_only_what_was_raised _ _ _ _ _ _ _ _ _ _ E).
Defined.

(** An image prompt, read as Ad Details: the product name is missing, the
    parser raises. *)
Lemma missing_required_field_run :
  pydantic_parse Scripted.parse_json
    (AdDetails_validate Scripted.strict_str Scripted.strict_int) "no style" =
  Raise (OutputParserException "no style").
Proof.
  destruct (missing_required_field_fails Scripted.strict_str Scripted.strict_int
              Scripted.parse_json "no style" Scripted.prompt_without_style
              "product_name") as [Hdetails _].
  - reflexivity.
  - vm_compute. reflexivity.
  - apply Hdetails. unfold AdDetails_required. rewrite !elem_of_cons. tauto.
Defined.

(** An image prompt with a style of the model's own keeps it. *)
Lemma style_fields_own_run :
  ∃ prompt,
    pydantic_parse Scripted.parse_json_styles
      (TextToImagePrompt_validate Scripted.strict_str Scripted.strict_int)
      "own style" = Ok prompt ∧
    Some "Watercolor" = Some (TextToImagePrompt.style_type prompt) ∧
    Some "Claude Monet" = Some (TextToImagePrompt.style_reference prompt).
Proof.
  destruct (pydantic_parse Scripted.parse_json_styles
              (TextToImagePrompt_validate Scripted.strict_str Scripted.strict_int)
              "own style") as [prompt | e] eqn:E.
  - exists prompt. split; [reflexivity |].
    apply (style_fields_keep_model_values Scripted.strict_str Scripted.strict_int
             Scripted.parse_json_styles "own style" Scripted.prompt_with_style
             (JStr "Watercolor") (JStr "Claude Monet"));
      [reflexivity | vm_compute; reflexivity | vm_compute; reflexivity | exact E].
  - vm_compute in E. discriminate.
Defined.

Section Characters.
Variable str_validate : json → option string.
Variable int_validate : json → option Z.
Variable parse_json : string → option json.

(** X17. The characters of a parsed prompt are the validated elements of
    the JSON list under [characters], one for one and in order: a text
    parses only when that value is a list and every element of it validates
    as a character (an object with a name, an appearance, a clothing and an
    expression); nothing is dropped or reordered. *)
Theorem characters_validated_in_order (text : string) (obj : gmap string json) :
  parse_json text = Some (JDict obj) →
  (∀ prompt,
     pydantic_parse parse_json
       (TextToImagePrompt_validate str_validate int_validate) text = Ok prompt →
     ∃ l, obj !! "characters" = Some (JList l) ∧
       Forall2 (λ c record, CharacterDetails_validate str_validate c = Some record)
         l (TextToImagePrompt.characters prompt)) ∧
  (∀ prompt,
     pydantic_parse parse_json
       (ImageToVideoPrompt_validate str_validate int_validate) text = Ok prompt →
     ∃ l, obj !! "characters" = Some (JList l) ∧
       Forall2 (λ c record, CharacterDetails_validate str_validate c = Some record)
         l (ImageToVideoPrompt.characters prompt)).
Proof.
  intros Hjson.
  assert (∀ records, field (characters_validate str_validate) None "characters" obj
                     = Some records →
          ∃ l, obj !! "characters" = Some (JList l) ∧
            Forall2 (λ c record, CharacterDetails_validate str_validate c = Some record)
              l records) as Hfield.
  { intros records. unfold field. destruct (obj !! "characters") as [v|]; [|done].
    destruct v as [| | | |l|]; try done. cbn. intros H%mapM_Some. eauto. }
  split; intros prompt; unfold pydantic_parse; rewrite Hjson; cbn [mbind option_bind].
  - unfold TextToImagePrompt_validate.
    destruct (_ ≫= _) as [record|] eqn:Hrecord; [|done]. intros [= <-].
    apply bind_Some in Hrecord as (? & _ & Hrecord). cbv beta in Hrecord.
    apply bind_Some in Hrecord as (records & Hrecords & Hrecord). cbv beta in Hrecord.
    repeat (apply bind_Some in Hrecord as (? & _ & Hrecord); cbv beta in Hrecord).
    injection Hrecord as <-. by apply Hfield.
  - unfold ImageToVideoPrompt_validate.
    destruct (_ ≫= _) as [record|] eqn:Hrecord; [|done]. intros [= <-].
    apply bind_Some in Hrecord as (? & _ & Hrecord). cbv beta in Hrecord.
    apply bind_Some in Hrecord as (records & Hrecords & Hrecord). cbv beta in Hrecord.
    repeat (apply bind_Some in Hrecord as (? & _ & Hrecord); cbv beta in Hrecord).
    injection Hrecord as <-. by apply Hfield.
Qed.

End Characters.

(** An image prompt with one character, parsed. *)
Lemma characters_validated_run :
  ∃ prompt l,
    pydantic_parse Scripted.parse_json_character
      (TextToImagePrompt_validate Scripted.strict_str Scripted.strict_int)
      "one character" = Ok prompt ∧
    Scripted.prompt_with_character !! "characters" = Some (JList l) ∧
    Forall2 (λ c record, CharacterDetails_validate Scripted.strict_str c = Some record)
      l (TextToImagePrompt.characters prompt).
Proof.
  destruct (pydantic_parse Scripted.parse_json_character
              (TextToImagePrompt_validate Scripted.strict_str Scripted.strict_int)
              "one character") as [prompt | e] eqn:E.
  - destruct (characters_validated_in_order Scripted.strict_str Scripted.strict_int
                Scripted.parse_json_character "one character"
                Scripted.prompt_with_character eq_refl) as [Himage _].
    destruct (Himage prompt E) as (l & Hl & Hall).
    exists prompt, l. split; [reflexivity |]. split; [exact Hl | exact Hall].
  - vm_compute in E. discriminate.
Defined.
